(** * heekkr-resolver-json-py: the federation engine and the Seoul Seocho adapter

    A shallow embedding of [app/__init__.py] (the [Resolver] servicer and
    [convert_library]) and of [app/services/seoul_seocho.py] (the
    [SeoulSeochoService] adapter), followed by the properties of the
    specification that were checked against them.

    Conventions.
    - A Python [str] is a [string] holding its UTF-8 encoding.  The only
      string operations of the program are equality, [startswith],
      [removeprefix], concatenation and [split] on a one-character ASCII
      separator, all of which agree on code points and on UTF-8 bytes.
    - A Python [set] of [str] is a [gset string]; iterating it is
      [elements], some fixed order the program has no control over.
    - A Python [dict] decoded from JSON is a [gmap string json].
    - A Python [float] is a binary64 [PrimFloat.float].
    - Code that may raise returns a [result]; a coroutine that is awaited is
      its [result]; an asynchronous generator is a [producer]. *)

From stdpp Require Import gmap strings list fin_maps.
From Stdlib Require Import ZArith PrimFloat Ascii.

#[local] Set Warnings "-register-all".

(** ** Exceptions and fallible computations *)

Inductive exn : Type :=
| KeyError (key : string)
| IndexError
| TypeError
| ValueError
| AttributeError
| ClientError (detail : string).

Inductive result (A : Type) : Type :=
| Ok (a : A)
| Raise (e : exn).
Arguments Ok {A} a.
Arguments Raise {A} e.

#[global] Instance result_ret : MRet result := fun A a => Ok a.
#[global] Instance result_bind : MBind result := fun A B f m =>
  match m with
  | Ok a => f a
  | Raise e => Raise e
  end.
#[global] Instance result_fmap : FMap result := fun A B f m =>
  match m with
  | Ok a => Ok (f a)
  | Raise e => Raise e
  end.

Definition is_Raise {A} (m : result A) : Prop := ∃ e, m = Raise e.

(** ** The string methods the program uses *)

Module Str.

(** [split_aux sep s] is the first field of [s] and the list of the
    remaining ones. *)
Fixpoint split_aux (sep : ascii) (s : string) : string * list string :=
  match s with
  | EmptyString => (EmptyString, [])
  | String c s' =>
      let '(h, t) := split_aux sep s' in
      if Ascii.eqb c sep then (EmptyString, h :: t) else (String c h, t)
  end.

(** [s.split(sep)] for a separator of one character. *)
Definition split (sep : ascii) (s : string) : list string :=
  let '(h, t) := split_aux sep s in h :: t.

(** [s.startswith(p)] *)
Definition startswith (s p : string) : bool := String.prefix p s.

(** [s.removeprefix(p)] *)
Definition removeprefix (s p : string) : string :=
  if startswith s p
  then String.substring (String.length p) (String.length s - String.length p) s
  else s.

(** [c in s] for a character [c]. *)
Fixpoint contains (c : ascii) (s : string) : bool :=
  match s with
  | EmptyString => false
  | String c' s' => Ascii.eqb c' c || contains c s'
  end.

End Str.

(** [l[i]] for a non-negative index. *)
Definition getitem {A} (l : list A) (i : nat) : result A :=
  match l !! i with
  | Some x => Ok x
  | None => Raise IndexError
  end.

(** ** The identifier scheme *)

(** The separator of a namespaced identifier. *)
Definition SEP : ascii := ":"%char.

(** [library_id.split(":")[0]]  ([Resolver.Search]) *)
Definition namespaceOf (library_id : string) : result string :=
  getitem (Str.split SEP library_id) 0.

(** ["{}:{}".format(PREFIX, code)], [f"{PREFIX}:{code}"] on strings
    ([SeoulSeochoService.get_libraries], [SeoulSeochoService.search]) *)
Definition compose (namespace localId : string) : string :=
  namespace +:+ ":" +:+ localId.

(** ** JSON values, as [response.json()] decodes them *)

Inductive json : Type :=
| JNull
| JBool (b : bool)
| JInt (z : Z)
| JFloat (f : float)
| JStr (s : string)
| JArr (l : list json)
| JObj (m : gmap string json).

(** [v[key]] for a string key: only a dict can be subscripted by a string. *)
Definition subscript (v : json) (key : string) : result json :=
  match v with
  | JObj m =>
      match m !! key with
      | Some x => Ok x
      | None => Raise (KeyError key)
      end
  | _ => Raise TypeError
  end.

(** [for x in v]: a list gives its items, a dict its keys, a string its
    characters (one per byte here: each is a [str], and the program goes no
    further than subscripting it); nothing else is iterable. *)
Definition iterate (v : json) : result (list json) :=
  match v with
  | JArr l => Ok l
  | JObj m => Ok (JStr <$> (map_to_list m).*1)
  | JStr s => Ok ((λ c, JStr (String c EmptyString)) <$> String.list_ascii_of_string s)
  | _ => Raise TypeError
  end.

(** [v == s] for a string literal [s]; comparing never raises. *)
Definition eq_str (v : json) (s : string) : bool :=
  match v with
  | JStr s' => bool_decide (s' = s)
  | _ => false
  end.

(** [v > 0]; [bool] is a subclass of [int], the other types do not order
    against an [int]. *)
Definition gt_zero (v : json) : result bool :=
  match v with
  | JInt z => Ok (bool_decide (0 < z)%Z)
  | JFloat f => Ok (PrimFloat.ltb PrimFloat.zero f)
  | JBool b => Ok b
  | _ => Raise TypeError
  end.

(** [v.startswith(p)]: only [str] has the method. *)
Definition json_startswith (v : json) (p : string) : result bool :=
  match v with
  | JStr s => Ok (Str.startswith s p)
  | _ => Raise AttributeError
  end.

(** [v.split(sep)]: only [str] has the method. *)
Definition json_split (v : json) (sep : ascii) : result (list string) :=
  match v with
  | JStr s => Ok (Str.split sep s)
  | _ => Raise AttributeError
  end.

(** ** Asynchronous generators *)

(** What an asynchronous generator does when it is driven to its end:
    it yields items, then returns or raises. *)
Inductive producer (A : Type) : Type :=
| Done
| Raised (e : exn)
| Yield (x : A) (rest : producer A).
Arguments Done {A}.
Arguments Raised {A} e.
Arguments Yield {A} x rest.

Fixpoint items {A} (p : producer A) : list A :=
  match p with
  | Yield x rest => x :: items rest
  | _ => []
  end.

Fixpoint ending {A} (p : producer A) : option exn :=
  match p with
  | Done => None
  | Raised e => Some e
  | Yield _ rest => ending rest
  end.

(** [yield_from emit xs]: the loop [for x in xs: yield emit(x)], which
    stops at the first [x] on which [emit] raises. *)
Fixpoint yield_from {A B} (emit : A → result B) (xs : list A) : producer B :=
  match xs with
  | [] => Done
  | x :: xs' =>
      match emit x with
      | Ok y => Yield y (yield_from emit xs')
      | Raise e => Raised e
      end
  end.

(** ** Wire messages ([heekkr.*_pb2])

    A message built from JSON fields keeps the values the adapter hands to
    its constructor; a field that is not given is [None]. *)

Module LatLng.
Record t := mk { latitude : float; longitude : float }.
End LatLng.

Module Library.
Record t := mk {
  id : string;
  name : string;
  resolver_id : string;
  coordinate : option LatLng.t }.
End Library.

Module Date.
Record t := mk { year : Z; month : Z; day : Z }.
End Date.

Module DateTime.
Record t := mk { date : Date.t }.
End DateTime.

Module Book.
Record t := mk { isbn : json; title : json; author : json; publisher : json }.
End Book.

Module AvailableStatus.
Record t := mk { detail : json }.
End AvailableStatus.

Module OnLoanStatus.
Record t := mk { detail : json; due : DateTime.t }.
End OnLoanStatus.

Module UnavailableStatus.
Record t := mk { detail : json }.
End UnavailableStatus.

Module HoldingStatus.
Record t := mk {
  available : option AvailableStatus.t;
  on_loan : option OnLoanStatus.t;
  unavailable : option UnavailableStatus.t;
  is_requested : bool;
  requests : json;
  requests_available : bool }.

(** How many of the three variants are populated. *)
Definition populated (s : t) : nat :=
  length (option_list (available s)) + length (option_list (on_loan s))
  + length (option_list (unavailable s)).
End HoldingStatus.

Module HoldingSummary.
Record t := mk {
  library_id : string;
  location : json;
  call_number : json;
  status : HoldingStatus.t }.
End HoldingSummary.

Module SearchEntity.
Record t := mk { book : Book.t; holding_summaries : list HoldingSummary.t }.
End SearchEntity.

Module SearchRequest.
Record t := mk { term : string; library_ids : list string }.
End SearchRequest.

Module SearchResponse.
Record t := mk { entities : list SearchEntity.t }.
End SearchResponse.

Module GetLibrariesResponse.
Record t := mk { libraries : list Library.t }.
End GetLibrariesResponse.

(** ** [app.core]: the adapter interface and the registry *)

Module Coordinate.
(** Modelled from the spec: [app.core.Coordinate], the optional coordinate
    of an internal library, [{latitude: float64, longitude: float64}]. *)
Record t := mk { latitude : float; longitude : float }.
End Coordinate.

Module ServiceLibrary.
(** Modelled from the spec: [app.core.Library], imported by the resolver as
    [ServiceLibrary]: [{id: string, name: string, coordinate: optional}]. *)
Record t := mk {
  id : string;
  name : string;
  coordinate : option Coordinate.t }.
End ServiceLibrary.

Module Service.
(** Modelled from the spec: [app.core.Service], the two-operation contract
    of a backend adapter.  [get_libraries] is the awaited listing once
    iterated; [search keyword library_ids] is the asynchronous generator the
    call returns. *)
Record t := mk {
  get_libraries : result (list ServiceLibrary.t);
  search : string → gset string → producer SearchEntity.t }.
End Service.

(** [app.core.services.items()]: the registered adapters by namespace, in
    registration order. *)
Abbreviation registry := (list (string * Service.t)).

(** ** [convert_library]

    [lib.coordinate] is [None] or a coordinate object, and an object is
    true in a condition. *)

Definition convert_library (lib : ServiceLibrary.t) : Library.t :=
  Library.mk
    (ServiceLibrary.id lib)
    (ServiceLibrary.name lib)
    "json-py"
    (match ServiceLibrary.coordinate lib with
     | Some c => Some (LatLng.mk (Coordinate.latitude c) (Coordinate.longitude c))
     | None => None
     end).

(** [yield_where emit xs]: the generator expression
    [(e(x) for x in xs if c(x))], where [emit x] is [None] when [c(x)] is
    false and [e(x)] otherwise; it stops at the first [x] on which [c] or [e]
    raises. *)
Fixpoint yield_where {A B} (emit : A → result (option B)) (xs : list A) : producer B :=
  match xs with
  | [] => Done
  | x :: xs' =>
      match emit x with
      | Ok (Some y) => Yield y (yield_where emit xs')
      | Ok None => yield_where emit xs'
      | Raise e => Raised e
      end
  end.

(** ** Joining coroutines: [asyncio.gather]

    Every coroutine is run.  When all of them return, the values come back
    in the order of the arguments; when some raise, [gather] raises the
    exception of whichever raised first, which is decided by timing. *)

Inductive gather {A} : list (result A) → result (list A) → Prop :=
| gather_all (values : list A) :
    gather (Ok <$> values) (Ok values)
| gather_raise (coros : list (result A)) (e : exn) :
    Raise e ∈ coros → gather coros (Raise e).

(** One schedule of [gather]: the coroutines finish in argument order. *)
Definition gather_in_order {A} (coros : list (result A)) : result (list A) :=
  mapM id coros.

(** ** Merging asynchronous generators: [aiostream.stream.merge]

    [merge sources out e]: driven to its end, the merge of [sources] emits
    [out] and then returns ([e = None]) or raises [e].  Each step forwards the
    next item of any source; a source that returns leaves the merge; a source
    that raises ends the merge with its exception, whatever the other sources
    still hold. *)

Inductive merge {A} : list (producer A) → list A → option exn → Prop :=
| merge_nil :
    merge [] [] None
| merge_return l1 l2 out e :
    merge (l1 ++ l2) out e →
    merge (l1 ++ Done :: l2) out e
| merge_yield l1 x rest l2 out e :
    merge (l1 ++ rest :: l2) out e →
    merge (l1 ++ Yield x rest :: l2) (x :: out) e
| merge_raise l1 err l2 :
    merge (l1 ++ Raised err :: l2) [] (Some err).

(** One schedule of [merge]: the sources are drained one after the other. *)
Fixpoint merge_in_order {A} (sources : list (producer A)) : list A * option exn :=
  match sources with
  | [] => ([], None)
  | p :: sources' =>
      match ending p with
      | Some e => (items p, Some e)
      | None =>
          let '(out, e) := merge_in_order sources' in (items p ++ out, e)
      end
  end.

(** ** The servicer *)

Module Resolver.

(** The coroutines handed to [asyncio.gather]: [service.get_libraries()]
    for each [service] of [services.items()]. *)
Definition listings (services : registry) : list (result (list ServiceLibrary.t)) :=
  (λ entry, Service.get_libraries entry.2) <$> services.

(** The list comprehension of [GetLibraries] and the response built from
    it, given what [gather] came back with. *)
Definition GetLibraries_from (gathered : result (list (list ServiceLibrary.t)))
  : result GetLibrariesResponse.t :=
  libraries ← gathered;
  Ok (GetLibrariesResponse.mk (convert_library <$> concat libraries)).

(** [Resolver.GetLibraries]: [r] is a possible result of the call. *)
Definition GetLibraries (services : registry) (r : result GetLibrariesResponse.t) : Prop :=
  ∃ gathered, gather (listings services) gathered ∧ r = GetLibraries_from gathered.

(** [set(request.library_ids or ())] *)
Definition library_ids_of (request : SearchRequest.t) : gset string :=
  list_to_set (SearchRequest.library_ids request).

(** [set(library_id.split(":")[0] for library_id in library_ids)] *)
Definition service_ids_of (library_ids : gset string) : result (gset string) :=
  list_to_set <$> mapM namespaceOf (elements library_ids).

(** [{library_id for library_id in library_ids
      if library_id.startswith(f"{name}:")}] *)
Definition scoped (library_ids : gset string) (name : string) : gset string :=
  filter (λ library_id, Str.startswith library_id (name +:+ ":") = true) library_ids.

(** One call [service.search(request.term, ids)] of the engine. *)
Record call := mk_call {
  call_name : string;
  call_service : Service.t;
  call_term : string;
  call_ids : gset string }.

(** The calls of the generator expression handed to [stream.merge]: one per
    entry of the registry whose name is in [service_ids], in registry
    order. *)
Definition search_calls (services : registry) (request : SearchRequest.t)
  : result (list call) :=
  let library_ids := library_ids_of request in
  service_ids ← service_ids_of library_ids;
  Ok ((λ entry, mk_call entry.1 entry.2 (SearchRequest.term request)
                        (scoped library_ids entry.1))
        <$> filter (λ entry, entry.1 ∈ service_ids) services).

(** The registry entry a call goes to. *)
Definition callee (c : call) : string * Service.t := (call_name c, call_service c).

(** The asynchronous generator a call returns. *)
Definition run_call (c : call) : producer SearchEntity.t :=
  Service.search (call_service c) (call_term c) (call_ids c).

(** [yield SearchResponse(entities=[entity])] *)
Definition respond (entity : SearchEntity.t) : SearchResponse.t :=
  SearchResponse.mk [entity].

(** [Resolver.Search]: driven to its end, the call streams [responses] and
    then completes ([e = None]) or raises [e]. *)
Definition Search (services : registry) (request : SearchRequest.t)
    (responses : list SearchResponse.t) (e : option exn) : Prop :=
  match search_calls services request with
  | Raise err => responses = [] ∧ e = Some err
  | Ok calls =>
      ∃ out, merge (run_call <$> calls) out e ∧ responses = respond <$> out
  end.

End Resolver.

(** ** The Seoul Seocho adapter *)

Module SeoulSeochoService.

Definition PREFIX : string := "seoul-seocho".

Record t := mk { base : string }.

(** [__init__] *)
Definition init : t := mk "https://public.seocholib.or.kr".

Section adapter.

(** Python's [str(v)] on a decoded JSON value, which is how an f-string
    formats it. *)
Variable py_str : json → string.

(** Python's [int(s)] on a string. *)
Variable py_int : string → result Z.

(** The upstream server: [http_post base path body] is the decoded JSON
    body of the response to the POST request, or what the client raises. *)
Variable http_post : string → string → json → result json.

(** [[lid.removeprefix("seoul-seocho:") for lid in library_ids]] *)
Definition manage_codes (library_ids : gset string) : list string :=
  (λ lid, Str.removeprefix lid "seoul-seocho:") <$> elements library_ids.

(** The [json=] argument of the POST request of [search]. *)
Definition search_body (keyword : string) (library_ids : gset string) : json :=
  JObj {[ "searchKeyword" := JStr keyword;
          "manageCode" := JArr (JStr <$> manage_codes library_ids) ]}.

Definition _parse_due (due : json) : result DateTime.t :=
  fields ← json_split due "."%char;
  parts ← mapM py_int fields;
  year ← getitem parts 0;
  month ← getitem parts 1;
  day ← getitem parts 2;
  Ok (DateTime.mk (Date.mk year month day)).

(** The last [return] of [_parse_state]. *)
Definition unavailable_state (book : json) (is_requested : bool) (requests : json)
    (requests_available : bool) : result HoldingStatus.t :=
  detail ← subscript book "workingStatus";
  Ok (HoldingStatus.mk None None (Some (UnavailableStatus.mk detail))
        is_requested requests requests_available).

Definition _parse_state (book : json) : result HoldingStatus.t :=
  reservationCount ← subscript book "reservationCount";
  is_requested ← gt_zero reservationCount;
  requests ← subscript book "reservationCount";
  isActiveResvYn ← subscript book "isActiveResvYn";
  let requests_available := eq_str isActiveResvYn "Y" in
  loan_status ← subscript book "loanStatus";
  if eq_str loan_status "대출가능" then
    detail ← subscript book "workingStatus";
    Ok (HoldingStatus.mk (Some (AvailableStatus.mk detail)) None None
          is_requested requests requests_available)
  else
    blocked ← json_startswith loan_status "대출불가";
    if (blocked : bool) then
      workingStatus ← subscript book "workingStatus";
      if eq_str workingStatus "대출중" || eq_str workingStatus "상호대차중" then
        detail ← subscript book "workingStatus";
        returnPlanDate ← subscript book "returnPlanDate";
        due ← _parse_due returnPlanDate;
        Ok (HoldingStatus.mk None (Some (OnLoanStatus.mk detail due)) None
              is_requested requests requests_available)
      else unavailable_state book is_requested requests requests_available
    else unavailable_state book is_requested requests requests_available.

(** The [SearchEntity] yielded for one item of the book list. *)
Definition search_entity (book : json) : result SearchEntity.t :=
  isbn ← subscript book "isbn";
  title ← subscript book "originalTitle";
  author ← subscript book "originalAuthor";
  publisher ← subscript book "originalPublisher";
  manageCode ← subscript book "manageCode";
  location ← subscript book "regCodeDesc";
  call_number ← subscript book "callNo";
  status ← _parse_state book;
  Ok (SearchEntity.mk (Book.mk isbn title author publisher)
        [HoldingSummary.mk (compose PREFIX (py_str manageCode))
           location call_number status]).

Definition search (self : t) (keyword : string) (library_ids : gset string)
  : producer SearchEntity.t :=
  match
    root ← http_post (base self) "/api/search" (search_body keyword library_ids);
    contents ← subscript root "contents";
    bookList ← subscript contents "bookList";
    iterate bookList
  with
  | Ok books => yield_from search_entity books
  | Raise e => Raised e
  end.

End adapter.

Module ListedLibrary.
(** What [get_libraries] gives to [Library(id=..., name=...)].  The class is
    [app.core.Library], outside these two files; the adapter leaves its
    coordinate unset. *)
Record t := mk { id : string; name : json }.
End ListedLibrary.

Section listing.

(** Python's [str(v)] on a decoded JSON value, which is how [str.format]
    formats it. *)
Variable py_str : json → string.

(** The upstream server: [http_get base path] is the decoded JSON body of
    the response to the GET request, or what the client raises. *)
Variable http_get : string → string → result json.

(** The filter of the generator expression: [lib["manageCode"] != "ALL"]. *)
Definition listed (lib : json) : result bool :=
  manageCode ← subscript lib "manageCode";
  Ok (negb (eq_str manageCode "ALL")).

(** One round of the generator expression of [get_libraries]: the filter,
    then the library built when it holds. *)
Definition library_of (lib : json) : result (option ListedLibrary.t) :=
  keep ← listed lib;
  if (keep : bool) then
    manageCode ← subscript lib "manageCode";
    libName ← subscript lib "libName";
    Ok (Some (ListedLibrary.mk (compose PREFIX (py_str manageCode)) libName))
  else Ok None.

(** [get_libraries]: awaited, it raises or returns the generator of the
    libraries. *)
Definition get_libraries (self : t) : result (producer ListedLibrary.t) :=
  root ← http_get (base self) "/api/common/libraryInfo";
  contents ← subscript root "contents";
  libList ← subscript contents "libList";
  libs ← iterate libList;
  Ok (yield_where library_of libs).

End listing.

End SeoulSeochoService.

(** ** The specification's reading of the identifier scheme *)

Module Spec.

(** "[stripNamespace(id, namespace)] removes a literal prefix
    [namespace + ":"]". *)
Definition stripNamespace (id namespace : string) : string :=
  Str.removeprefix id (namespace +:+ ":").

(** "its namespace-local subset of [libraryIds] (strip prefix)". *)
Definition localSubset (library_ids : gset string) (namespace : string) : gset string :=
  set_map (λ id, stripNamespace id namespace) (Resolver.scoped library_ids namespace).

(** "For each selected adapter, [...] invoke that adapter's search
    operation with [(term, localSubset)]". *)
Definition passes_local_ids (services : registry) (request : SearchRequest.t) : Prop :=
  ∀ calls, Resolver.search_calls services request = Ok calls →
  ∀ c, c ∈ calls →
    Resolver.call_ids c
    = localSubset (Resolver.library_ids_of request) (Resolver.call_name c).

(** An id without separator that is the name of a registered adapter has
    that adapter searched with an empty set of ids. *)
Definition bare_id_unscoped (services : registry) (request : SearchRequest.t) : Prop :=
  ∀ bare service,
    Str.contains SEP bare = false →
    bare ∈ SearchRequest.library_ids request →
    (bare, service) ∈ services →
    ∃ calls, Resolver.search_calls services request = Ok calls
      ∧ ∃ c, c ∈ calls ∧ Resolver.callee c = (bare, service)
          ∧ Resolver.call_ids c = ∅.

End Spec.

(** ** Sample data *)

Module Samples.

Definition entity (isbn : string) : SearchEntity.t :=
  SearchEntity.mk (Book.mk (JStr isbn) JNull JNull JNull) [].

(** An adapter that lists [libraries] and finds [found] whatever is asked. *)
Definition adapter (libraries : list ServiceLibrary.t) (found : list SearchEntity.t)
  : Service.t :=
  Service.mk (Ok libraries) (λ _ _, foldr Yield Done found).

(** An adapter whose upstream is unreachable. *)
Definition unreachable (detail : string) : Service.t :=
  Service.mk (Raise (ClientError detail)) (λ _ _, Raised (ClientError detail)).

Definition a1 : ServiceLibrary.t := ServiceLibrary.mk "a:1" "A one" None.
Definition a2 : ServiceLibrary.t :=
  ServiceLibrary.mk "a:2" "A two" (Some (Coordinate.mk PrimFloat.one PrimFloat.zero)).
Definition b1 : ServiceLibrary.t := ServiceLibrary.mk "b:1" "B one" None.

Definition registry_abc : registry :=
  [ ("a", adapter [a1; a2] [entity "1"; entity "2"]);
    ("b", adapter [b1] [entity "3"]);
    ("c", adapter [] [entity "4"]) ].

Definition registry_ab : registry :=
  [ ("a", adapter [a1; a2] [entity "1"; entity "2"]);
    ("b", adapter [b1] [entity "3"]) ].

Definition registry_down : registry :=
  [ ("a", adapter [a1; a2] []); ("b", unreachable "b is down") ].

Definition registry_seocho : registry :=
  [ ("seoul-seocho", adapter [] [entity "5"]) ].

(** A registry with an adapter whose name contains the separator. *)
Definition registry_colon : registry :=
  [ ("a", adapter [a1; a2] [entity "1"]); ("a:b", adapter [] [entity "6"]) ].

(** [int(s)] on a string of decimal digits. *)
Fixpoint digits (acc : Z) (s : string) : result Z :=
  match s with
  | EmptyString => Ok acc
  | String c s' =>
      match Ascii.is_nat c with
      | Some d => digits (10 * acc + Z.of_nat d) s'
      | None => Raise ValueError
      end
  end.

Definition decimal (s : string) : result Z :=
  match s with
  | EmptyString => Raise ValueError
  | _ => digits 0 s
  end.

(** A copy on the shelf, nobody waiting. *)
Definition book_available : json :=
  JObj {[ "reservationCount" := JInt 0;
          "isActiveResvYn" := JStr "N";
          "loanStatus" := JStr "대출가능";
          "workingStatus" := JStr "비치중" ]}.

(** A copy on loan with a return date, two readers waiting. *)
Definition book_on_loan : json :=
  JObj {[ "reservationCount" := JInt 2;
          "isActiveResvYn" := JStr "Y";
          "loanStatus" := JStr "대출불가(대출중)";
          "workingStatus" := JStr "대출중";
          "returnPlanDate" := JStr "2023.10.05" ]}.

(** A copy on loan whose record has no return date. *)
Definition book_on_loan_no_due : json :=
  JObj {[ "reservationCount" := JInt 2;
          "isActiveResvYn" := JStr "Y";
          "loanStatus" := JStr "대출불가(대출중)";
          "workingStatus" := JStr "대출중" ]}.

(** A full record of the book list, for a copy on loan. *)
Definition book_record : json :=
  JObj {[ "isbn" := JStr "9788936434267";
          "originalTitle" := JStr "title";
          "originalAuthor" := JStr "author";
          "originalPublisher" := JStr "publisher";
          "manageCode" := JStr "MA";
          "regCodeDesc" := JStr "shelf";
          "callNo" := JStr "813.7";
          "reservationCount" := JInt 1;
          "isActiveResvYn" := JStr "Y";
          "loanStatus" := JStr "대출불가(대출중)";
          "workingStatus" := JStr "상호대차중";
          "returnPlanDate" := JStr "2023.11.30" ]}.

(** An upstream that answers every search with [book_record]. *)
Definition upstream (base path : string) (body : json) : result json :=
  Ok (JObj {[ "contents" := JObj {[ "bookList" := JArr [book_record] ]} ]}).

(** [str(v)] on the strings of the sample records. *)
Definition str (v : json) : string :=
  match v with
  | JStr s => s
  | _ => EmptyString
  end.

(** The library list of an upstream with two branches and the pseudo
    branch that stands for all of them. *)
Definition library_info : json :=
  JObj {[ "contents" :=
            JObj {[ "libList" :=
                      JArr [ JObj {[ "manageCode" := JStr "ALL";
                                     "libName" := JStr "all" ]};
                             JObj {[ "manageCode" := JStr "MA";
                                     "libName" := JStr "Banpo" ]};
                             JObj {[ "manageCode" := JStr "MB";
                                     "libName" := JStr "Naegok" ]} ] ]} ]}.

(** An upstream that answers every GET with [library_info]. *)
Definition upstream_get (base path : string) : result json := Ok library_info.

(** An upstream whose second record is empty. *)
Definition upstream_broken (base path : string) (body : json) : result json :=
  Ok (JObj {[ "contents" :=
                JObj {[ "bookList" := JArr [book_record; JObj ∅; book_record] ]} ]}).

(** A lost copy. *)
Definition book_lost : json :=
  JObj {[ "reservationCount" := JInt 0;
          "isActiveResvYn" := JStr "N";
          "loanStatus" := JStr "대출불가";
          "workingStatus" := JStr "분실" ]}.

End Samples.

(** * Properties *)

(** ** Strings *)

Example split_fields : Str.split ":" "a:b:c" = ["a"; "b"; "c"].
Proof. reflexivity. Qed.

Example split_edges :
  Str.split ":" "" = [""] ∧ Str.split ":" ":" = [""; ""]
  ∧ Str.split "." "2023.10.05" = ["2023"; "10"; "05"].
Proof. done. Qed.

Example removeprefix_present :
  Str.removeprefix "seoul-seocho:MA" "seoul-seocho:" = "MA".
Proof. reflexivity. Qed.

Example removeprefix_absent :
  Str.removeprefix "seoul-seocho" "seoul-seocho:" = "seoul-seocho".
Proof. reflexivity. Qed.

Lemma split_aux_no_sep sep s :
  Str.contains sep s = false → Str.split_aux sep s = (s, []).
Proof.
  induction s as [|c s IH]; simpl; [done|].
  intros [Hc Hs]%orb_false_iff. by rewrite (IH Hs), Hc.
Qed.

Lemma split_aux_sep sep s rest :
  Str.contains sep s = false →
  Str.split_aux sep (s +:+ String sep rest) = (s, Str.split sep rest).
Proof.
  intros Hs. induction s as [|c s IH]; simpl in *.
  - unfold Str.split. destruct (Str.split_aux sep rest) as [h t].
    by rewrite Ascii.eqb_refl.
  - apply orb_false_iff in Hs as [Hc Hs]. by rewrite (IH Hs), Hc.
Qed.

Lemma namespaceOf_first id : namespaceOf id = Ok (Str.split_aux SEP id).1.
Proof.
  unfold namespaceOf, Str.split. by destruct (Str.split_aux SEP id).
Qed.

Lemma index_sep_cons c s :
  String.index 0 ":" (String c s) =
  if Ascii.eqb c SEP then Some 0
  else S <$> String.index 0 ":" s.
Proof.
  unfold SEP. cbn [String.index String.prefix].
  destruct (ascii_dec ":" c) as [<-|Hne].
  - by destruct s.
  - destruct (Ascii.eqb_spec c ":"%char) as [->|_]; [done|].
    by destruct (String.index 0 ":" s).
Qed.

Lemma index_contains s :
  String.index 0 ":" s = None ↔ Str.contains SEP s = false.
Proof.
  induction s as [|c s IH]; [done|].
  rewrite index_sep_cons. cbn [Str.contains].
  destruct (Ascii.eqb c SEP); simpl; [done|].
  rewrite <- IH. by destruct (String.index 0 ":" s).
Qed.

Lemma split_aux_index id :
  (Str.split_aux SEP id).1 =
  match String.index 0 ":" id with
  | Some n => String.substring 0 n id
  | None => id
  end.
Proof.
  induction id as [|c id IH]; [done|].
  rewrite index_sep_cons. cbn [Str.split_aux].
  destruct (Str.split_aux SEP id) as [h t]; simpl in IH.
  destruct (Ascii.eqb c SEP); simpl; [done|].
  destruct (String.index 0 ":" id); simpl; by rewrite IH.
Qed.

Lemma namespaceOf_no_sep id :
  Str.contains SEP id = false → namespaceOf id = Ok id.
Proof. intros H. by rewrite namespaceOf_first, split_aux_no_sep. Qed.

Lemma namespaceOf_sep ns rest :
  Str.contains SEP ns = false → namespaceOf (ns +:+ String SEP rest) = Ok ns.
Proof. intros H. by rewrite namespaceOf_first, split_aux_sep. Qed.

(** C2, as amended: [namespaceOf] never fails.  It returns the substring
    strictly before the first [":"] when the identifier has one, and the
    whole identifier when it has none. *)
Theorem namespaceOf_returns (id : string) :
  namespaceOf id =
  Ok (match String.index 0 ":" id with
      | Some n => String.substring 0 n id
      | None => id
      end).
Proof. by rewrite namespaceOf_first, split_aux_index. Qed.

(** C2, as stated, fails: the identifier ["seoul-seocho"] has no separator,
    and [namespaceOf] returns it instead of failing. *)
Lemma namespaceOf_fails_counterexample :
  String.index 0 ":" "seoul-seocho" = None
  ∧ namespaceOf "seoul-seocho" = Ok "seoul-seocho"
  ∧ ¬ is_Raise (namespaceOf "seoul-seocho").
Proof.
  split_and!; [done..|]. intros [e He]. discriminate He.
Qed.

(** C6: for a namespace [ns] without separator and any local id,
    [namespaceOf (compose ns local)] is [ns]. *)
Theorem namespaceOf_compose (ns local : string) :
  Str.contains SEP ns = false →
  namespaceOf (compose ns local) = Ok ns.
Proof. intros H. unfold compose. by apply namespaceOf_sep. Qed.

Lemma namespaceOf_compose_witness :
  Str.contains SEP "seoul-seocho" = false
  ∧ namespaceOf (compose "seoul-seocho" "MA") = Ok "seoul-seocho".
Proof.
  split; [reflexivity|].
  apply (namespaceOf_compose "seoul-seocho" "MA"). reflexivity.
Defined.

Lemma substring_all s : String.substring 0 (String.length s) s = s.
Proof. induction s as [|c s IH]; simpl; [done|]. by rewrite IH. Qed.

Lemma append_cons c (s1 s2 : string) : String c s1 +:+ s2 = String c (s1 +:+ s2).
Proof. reflexivity. Qed.

Lemma append_assoc (s1 s2 s3 : string) : (s1 +:+ s2) +:+ s3 = s1 +:+ s2 +:+ s3.
Proof.
  induction s1 as [|c s1 IH]; [done|]. by rewrite !append_cons, IH.
Qed.

Lemma startswith_app s p :
  Str.startswith s p = true ↔ ∃ rest, s = p +:+ rest.
Proof.
  unfold Str.startswith. revert s.
  induction p as [|c p IH]; intros s.
  - split; [by exists s|by destruct s].
  - destruct s as [|c' s]; simpl.
    + split; [done|]. intros [rest ?]. by rewrite append_cons in *.
    + destruct (ascii_dec c c') as [<-|Hne].
      * rewrite IH.
        split; intros [rest Hr]; exists rest; rewrite append_cons in *; congruence.
      * split; [done|]. intros [rest ?]. rewrite append_cons in *. congruence.
Qed.

Lemma removeprefix_app p rest : Str.removeprefix (p +:+ rest) p = rest.
Proof.
  unfold Str.removeprefix.
  destruct (Str.startswith (p +:+ rest) p) eqn:E.
  - clear E. induction p as [|c p IH].
    + change ("" +:+ rest) with rest. simpl. rewrite Nat.sub_0_r.
      apply substring_all.
    + rewrite append_cons. apply IH.
  - assert (Str.startswith (p +:+ rest) p = true) as E'
      by (apply startswith_app; eauto).
    congruence.
Qed.

Lemma removeprefix_startswith s p :
  Str.startswith s p = true → s = p +:+ Str.removeprefix s p.
Proof.
  intros [rest ->]%startswith_app. by rewrite removeprefix_app.
Qed.

(** ** Fallible loops *)

Lemma mapM_Ok {A B} (f : A → result B) (g : A → B) (l : list A) :
  (∀ x, f x = Ok (g x)) → mapM f l = Ok (g <$> l).
Proof.
  intros Hf. induction l as [|x l IH]; simpl; [done|].
  by rewrite Hf, IH.
Qed.

Lemma mapM_id_Ok {A} (coros : list (result A)) (values : list A) :
  mapM id coros = Ok values ↔ coros = Ok <$> values.
Proof.
  revert values. induction coros as [|c coros IH]; intros values; simpl.
  - split; [intros [= <-]; done|]. by destruct values.
  - destruct c as [a|e]; simpl.
    + destruct (mapM id coros) as [vs|e] eqn:E; simpl.
      * split.
        -- intros [= <-]. simpl. f_equal. by apply IH.
        -- destruct values as [|v values]; [done|]. intros [= -> Hc].
           apply IH in Hc. injection Hc as ->. done.
      * split; [done|]. destruct values as [|v values]; [done|].
        intros [= -> Hc]. by apply IH in Hc.
    + split; [done|]. by destruct values.
Qed.

Lemma mapM_id_Raise {A} (coros : list (result A)) (e : exn) :
  mapM id coros = Raise e → Raise e ∈ coros.
Proof.
  induction coros as [|c coros IH]; simpl; [done|].
  destruct c as [a|e']; simpl.
  - destruct (mapM id coros) as [vs|e''] eqn:E; simpl; [done|].
    intros [= ->]. right. by apply IH.
  - intros [= ->]. left.
Qed.

#[global] Instance Ok_inj {A} : Inj (=) (=) (@Ok A).
Proof. by intros ?? [= ->]. Qed.

Lemma Raise_not_in_Ok {A} (values : list A) (e : exn) :
  Raise e ∉ (Ok <$> values : list (result A)).
Proof. intros (v & ? & _)%list_elem_of_fmap. discriminate. Qed.

(** ** [asyncio.gather] *)

Lemma length_concat_sum {A} (ls : list (list A)) :
  length (concat ls) = sum_list (length <$> ls).
Proof.
  induction ls as [|l ls IH]; simpl; [done|]. by rewrite length_app, IH.
Qed.

Lemma gather_in_order_sound {A} (coros : list (result A)) :
  gather coros (gather_in_order coros).
Proof.
  unfold gather_in_order. destruct (mapM id coros) as [vs|e] eqn:E.
  - apply mapM_id_Ok in E as ->. constructor.
  - constructor. by apply mapM_id_Raise.
Qed.

Lemma gather_all_inv {A} (values : list A) r :
  gather (Ok <$> values) r → r = Ok values.
Proof.
  inversion 1 as [vs Hvs|cs e He]; subst.
  - f_equal. by apply (inj (fmap Ok)).
  - by apply Raise_not_in_Ok in He.
Qed.

Lemma gather_raise_inv {A} (coros : list (result A)) (e : exn) r :
  Raise e ∈ coros → gather coros r → ∃ e', r = Raise e' ∧ Raise e' ∈ coros.
Proof.
  intros He. inversion 1 as [vs Hvs|cs e' He']; subst; [|eauto].
  by apply Raise_not_in_Ok in He.
Qed.

(** ** Bulk listing *)

Lemma listings_Ok (services : registry) (listed : list (list ServiceLibrary.t)) :
  Forall2 (λ entry libraries, Service.get_libraries entry.2 = Ok libraries)
    services listed →
  Resolver.listings services = Ok <$> listed.
Proof.
  unfold Resolver.listings.
  induction 1 as [|entry libraries services listed Hget _ IH]; csimpl; [done|].
  by rewrite Hget, IH.
Qed.

Lemma listings_Raise (services : registry) name service e :
  (name, service) ∈ services →
  Service.get_libraries service = Raise e →
  Raise e ∈ Resolver.listings services.
Proof.
  intros Hin He. unfold Resolver.listings.
  apply list_elem_of_fmap. by exists (name, service).
Qed.

Lemma GetLibraries_in_order (services : registry) :
  Resolver.GetLibraries services
    (Resolver.GetLibraries_from (gather_in_order (Resolver.listings services))).
Proof. eexists. split; [apply gather_in_order_sound|done]. Qed.

#[global] Instance convert_library_inj : Inj (=) (=) convert_library.
Proof.
  intros [i1 n1 c1] [i2 n2 c2]. unfold convert_library; simpl.
  intros [= -> -> Hc]. f_equal.
  destruct c1 as [[]|], c2 as [[]|]; simplify_eq; done.
Qed.

(** C4: when the listing of at least one registered adapter fails,
    [GetLibraries] fails as a whole: the call has a result, every result it
    can have is the exception of an adapter whose listing failed (that of
    the failing adapter when it is the only one), and no result carries a
    list of libraries. *)
Theorem GetLibraries_fails (services : registry) (name : string)
    (service : Service.t) (e : exn) :
  (name, service) ∈ services →
  Service.get_libraries service = Raise e →
  (∃ r, Resolver.GetLibraries services r)
  ∧ (∀ r, Resolver.GetLibraries services r →
       ∃ name' service' e',
         (name', service') ∈ services
         ∧ Service.get_libraries service' = Raise e'
         ∧ r = Raise e')
  ∧ (∀ r, Resolver.GetLibraries services r →
       (∀ entry e', entry ∈ services →
          Service.get_libraries entry.2 = Raise e' → e' = e) →
       r = Raise e)
  ∧ (∀ response, ¬ Resolver.GetLibraries services (Ok response)).
Proof.
  intros Hin He.
  assert (∀ r, Resolver.GetLibraries services r →
            ∃ name' service' e',
              (name', service') ∈ services
              ∧ Service.get_libraries service' = Raise e'
              ∧ r = Raise e') as Hall.
  { intros r (gathered & Hg & ->).
    eapply gather_raise_inv in Hg as (e' & -> & He');
      [|by eapply listings_Raise].
    apply list_elem_of_fmap in He' as ([name' service'] & Hget & Hin').
    by exists name', service', e'. }
  split_and!.
  - eexists. apply GetLibraries_in_order.
  - done.
  - intros r (name' & service' & e' & Hin' & He' & ->)%Hall Honly.
    f_equal. by apply (Honly (name', service')).
  - intros response (? & ? & ? & _ & _ & ?)%Hall. discriminate.
Qed.

Lemma GetLibraries_fails_witness :
  ("b", Samples.unreachable "b is down") ∈ Samples.registry_down
  ∧ Service.get_libraries (Samples.unreachable "b is down")
    = Raise (ClientError "b is down")
  ∧ ∀ r, Resolver.GetLibraries Samples.registry_down r →
         r = Raise (ClientError "b is down").
Proof.
  assert (("b", Samples.unreachable "b is down") ∈ Samples.registry_down)
    as Hin by (right; left).
  split_and!; [done..|].
  intros r Hr.
  destruct (GetLibraries_fails Samples.registry_down "b"
              (Samples.unreachable "b is down") (ClientError "b is down")
              Hin eq_refl) as (_ & _ & Honly & _).
  apply Honly; [done|].
  intros entry e' Hentry. unfold Samples.registry_down in Hentry.
  repeat (apply elem_of_cons in Hentry as [->|Hentry]); simpl;
    [discriminate|by intros [= <-]|by apply elem_of_nil in Hentry].
Defined.

(** C5: when the listing of every registered adapter succeeds,
    [GetLibraries] returns, and can only return, the concatenation of the
    adapters' libraries, adapters in registry order and each adapter's
    libraries in the order it gave them, every one converted to the wire
    shape.  The number of libraries returned is the sum of the adapters'
    counts, and no library is repeated when the adapters' lists are duplicate
    free and pairwise disjoint. *)
Theorem GetLibraries_concatenates (services : registry)
    (listed : list (list ServiceLibrary.t)) :
  Forall2 (λ entry libraries, Service.get_libraries entry.2 = Ok libraries)
    services listed →
  Resolver.GetLibraries services
    (Ok (GetLibrariesResponse.mk (convert_library <$> concat listed)))
  ∧ (∀ r, Resolver.GetLibraries services r →
       r = Ok (GetLibrariesResponse.mk (convert_library <$> concat listed)))
  ∧ length (convert_library <$> concat listed) = sum_list (length <$> listed)
  ∧ (NoDup (concat listed) → NoDup (convert_library <$> concat listed)).
Proof.
  intros Hall%listings_Ok. split_and!.
  - exists (Ok listed). split; [|done]. rewrite Hall. constructor.
  - intros r (gathered & Hg & ->). rewrite Hall in Hg.
    by apply gather_all_inv in Hg as ->.
  - by rewrite length_fmap, length_concat_sum.
  - apply NoDup_fmap_2, _.
Qed.

Lemma GetLibraries_concatenates_witness :
  Resolver.GetLibraries Samples.registry_ab
    (Ok (GetLibrariesResponse.mk
           (convert_library <$> [Samples.a1; Samples.a2; Samples.b1]))).
Proof.
  apply (GetLibraries_concatenates Samples.registry_ab
           [[Samples.a1; Samples.a2]; [Samples.b1]]).
  repeat constructor.
Defined.

(** ** Conversion *)

(** C8: [convert_library] copies the id and the name, tags the library with
    the constant ["json-py"], and carries the coordinate over: the converted
    latitude and longitude when the library has a coordinate, no coordinate
    when it has none. *)
Theorem convert_library_spec (lib : ServiceLibrary.t) :
  Library.id (convert_library lib) = ServiceLibrary.id lib
  ∧ Library.name (convert_library lib) = ServiceLibrary.name lib
  ∧ Library.resolver_id (convert_library lib) = "json-py"
  ∧ Library.coordinate (convert_library lib)
    = (λ c, LatLng.mk (Coordinate.latitude c) (Coordinate.longitude c))
        <$> ServiceLibrary.coordinate lib
  ∧ (Library.coordinate (convert_library lib) = None
     ↔ ServiceLibrary.coordinate lib = None).
Proof.
  destruct lib as [i n [c|]]; simpl; split_and!; done.
Qed.

(** ** [stream.merge] *)

Lemma merge_head {A} (p : producer A) (sources : list (producer A)) out e :
  merge sources out e →
  merge (p :: sources)
    (items p ++ match ending p with Some _ => [] | None => out end)
    (match ending p with Some err => Some err | None => e end).
Proof.
  intros Hm. induction p as [|err|x rest IH]; simpl.
  - by apply (merge_return []).
  - apply (merge_raise []).
  - by apply (merge_yield []).
Qed.

Lemma merge_in_order_sound {A} (sources : list (producer A)) :
  merge sources (merge_in_order sources).1 (merge_in_order sources).2.
Proof.
  induction sources as [|p sources IH]; simpl; [constructor|].
  pose proof (merge_head p sources _ _ IH) as Hm.
  destruct (ending p) as [err|]; simpl in *.
  - by rewrite app_nil_r in Hm.
  - by destruct (merge_in_order sources).
Qed.

Lemma merge_complete {A} (sources : list (producer A)) out e :
  Forall (λ p, ending p = None) sources →
  merge sources out e →
  e = None ∧ out ≡ₚ concat (items <$> sources).
Proof.
  intros Hall Hm. induction Hm as [|l1 l2 out e _ IH|l1 x rest l2 out e _ IH|l1 err l2].
  - done.
  - apply Forall_app in Hall as [H1 [_ H2]%Forall_cons].
    destruct IH as [-> IH]; [by apply Forall_app|]. split; [done|].
    rewrite IH, !fmap_app, !concat_app. done.
  - apply Forall_app in Hall as [H1 [Hx H2]%Forall_cons].
    destruct IH as [-> IH]; [apply Forall_app; by split; [|constructor]|].
    split; [done|].
    rewrite IH, !fmap_app, !concat_app. csimpl.
    by rewrite Permutation_middle.
  - apply Forall_app in Hall as [_ [Herr _]%Forall_cons]. discriminate.
Qed.

(** ** Streaming search *)

Lemma filter_none {A} (P : A → Prop) `{∀ x, Decision (P x)} (l : list A) :
  (∀ x, ¬ P x) → filter P l = [].
Proof.
  intros Hnone. induction l as [|x l IH]; [done|].
  rewrite filter_cons. by destruct (decide (P x)); [destruct (Hnone x)|].
Qed.

Lemma service_ids_of_Ok (library_ids : gset string) :
  Resolver.service_ids_of library_ids
  = Ok (set_map (λ id, (Str.split_aux SEP id).1) library_ids).
Proof.
  unfold Resolver.service_ids_of.
  by rewrite (mapM_Ok _ _ _ namespaceOf_first).
Qed.

Lemma elem_of_service_ids (library_ids : gset string) (name : string) :
  name ∈ (set_map (λ id, (Str.split_aux SEP id).1) library_ids : gset string)
  ↔ ∃ id, id ∈ library_ids ∧ namespaceOf id = Ok name.
Proof.
  rewrite elem_of_map. split.
  - intros (id & -> & Hid). exists id. by rewrite namespaceOf_first.
  - intros (id & Hid & Hns). exists id. rewrite namespaceOf_first in Hns.
    by injection Hns as <-.
Qed.

Lemma search_calls_Ok (services : registry) (request : SearchRequest.t) :
  Resolver.search_calls services request
  = Ok ((λ entry, Resolver.mk_call entry.1 entry.2 (SearchRequest.term request)
                    (Resolver.scoped (Resolver.library_ids_of request) entry.1))
          <$> filter (λ entry, entry.1 ∈ (set_map (λ id, (Str.split_aux SEP id).1)
                                            (Resolver.library_ids_of request)
                                          : gset string))
                services).
Proof.
  unfold Resolver.search_calls. by rewrite service_ids_of_Ok.
Qed.

Lemma callee_search_calls (services : registry) (request : SearchRequest.t) calls :
  Resolver.search_calls services request = Ok calls →
  Resolver.callee <$> calls
  = filter (λ entry, entry.1 ∈ (set_map (λ id, (Str.split_aux SEP id).1)
                                  (Resolver.library_ids_of request)
                                : gset string))
      services.
Proof.
  rewrite search_calls_Ok. intros [= <-].
  rewrite <- list_fmap_compose.
  rewrite <- (list_fmap_id (filter _ services)) at 2.
  apply list_fmap_ext. by intros _ [name service] _.
Qed.

Lemma elem_of_search_calls (services : registry) (request : SearchRequest.t) calls c :
  Resolver.search_calls services request = Ok calls →
  c ∈ calls →
  Resolver.callee c ∈ services
  ∧ Resolver.call_term c = SearchRequest.term request
  ∧ Resolver.call_ids c
    = Resolver.scoped (Resolver.library_ids_of request) (Resolver.call_name c).
Proof.
  rewrite search_calls_Ok. intros [= <-].
  intros ([name service] & -> & [_ Hin]%list_elem_of_filter)%list_elem_of_fmap.
  done.
Qed.

Lemma elem_of_scoped (library_ids : gset string) (name id : string) :
  id ∈ Resolver.scoped library_ids name
  ↔ id ∈ library_ids ∧ ∃ localId, id = compose name localId.
Proof.
  unfold Resolver.scoped. rewrite elem_of_filter, startswith_app.
  unfold compose. setoid_rewrite <- append_assoc. tauto.
Qed.

Lemma search_calls_example :
  ∃ calls,
    Resolver.search_calls Samples.registry_abc
      (SearchRequest.mk "foo" ["a:1"; "b:9"]) = Ok calls
    ∧ Resolver.call_name <$> calls = ["a"; "b"]
    ∧ Resolver.call_ids <$> calls = [{["a:1"]}; {["b:9"]}].
Proof.
  eexists. split; [by vm_compute|].
  split; [done|]. apply (bool_decide_unpack _). by vm_compute.
Qed.

Lemma compose_PREFIX (code : string) :
  compose SeoulSeochoService.PREFIX code = "seoul-seocho:" +:+ code.
Proof. reflexivity. Qed.

Lemma elem_of_manage_codes (library_ids : gset string) (code : string) :
  code ∈ SeoulSeochoService.manage_codes
           (Resolver.scoped library_ids SeoulSeochoService.PREFIX)
  ↔ compose SeoulSeochoService.PREFIX code ∈ library_ids.
Proof.
  unfold SeoulSeochoService.manage_codes. rewrite list_elem_of_fmap.
  setoid_rewrite elem_of_elements. split.
  - intros (id & -> & [Hid [localId ->]]%elem_of_scoped).
    by rewrite (compose_PREFIX localId), removeprefix_app.
  - intros Hin. exists (compose SeoulSeochoService.PREFIX code). split.
    + by rewrite compose_PREFIX, removeprefix_app.
    + apply elem_of_scoped. eauto.
Qed.

Example search_body_strips :
  SeoulSeochoService.search_body "foo" {["seoul-seocho:MA"]}
  = JObj {[ "searchKeyword" := JStr "foo"; "manageCode" := JArr [JStr "MA"] ]}.
Proof. vm_compute. reflexivity. Qed.

(** C1, as amended: every call of the engine carries the search term and
    the caller's ids of the adapter's namespace in full, prefix included:
    the ids passed to the adapter named [name] are exactly the supplied ids
    of the form [name + ":" + localId].  The prefix is stripped by the
    adapter: the codes the Seoul Seocho adapter sends upstream are exactly
    the local parts of the supplied ids of its namespace. *)
Theorem Search_passes_namespaced_ids (services : registry)
    (request : SearchRequest.t) (calls : list Resolver.call) (c : Resolver.call) :
  Resolver.search_calls services request = Ok calls →
  c ∈ calls →
  Resolver.call_term c = SearchRequest.term request
  ∧ (∀ id, id ∈ Resolver.call_ids c
           ↔ id ∈ SearchRequest.library_ids request
             ∧ ∃ localId, id = compose (Resolver.call_name c) localId)
  ∧ (Resolver.call_name c = SeoulSeochoService.PREFIX →
     ∀ code, code ∈ SeoulSeochoService.manage_codes (Resolver.call_ids c)
             ↔ compose SeoulSeochoService.PREFIX code
               ∈ SearchRequest.library_ids request).
Proof.
  intros Hcalls Hc.
  destruct (elem_of_search_calls _ _ _ _ Hcalls Hc) as (_ & Hterm & Hids).
  split_and!; [done|..].
  - intros id. rewrite Hids, elem_of_scoped.
    unfold Resolver.library_ids_of. by rewrite elem_of_list_to_set.
  - intros Hname code. rewrite Hids, Hname, elem_of_manage_codes.
    unfold Resolver.library_ids_of. by rewrite elem_of_list_to_set.
Qed.

Lemma Search_passes_namespaced_ids_witness :
  ∃ calls c,
    Resolver.search_calls Samples.registry_abc
      (SearchRequest.mk "foo" ["a:1"; "b:9"]) = Ok calls
    ∧ c ∈ calls
    ∧ Resolver.call_name c = "a"
    ∧ ("a:1" ∈ Resolver.call_ids c
       ↔ "a:1" ∈ ["a:1"; "b:9"] ∧ ∃ localId, "a:1" = compose "a" localId).
Proof.
  eexists _, (Resolver.mk_call "a" _ "foo" _).
  split; [by vm_compute|]. split; [left|]. split; [done|].
  eapply (Search_passes_namespaced_ids Samples.registry_abc
            (SearchRequest.mk "foo" ["a:1"; "b:9"])).
  - by vm_compute.
  - left.
Defined.

(** C1, as stated, fails: on [Search("foo", {"a:1", "b:9"})] adapter [a]
    is called with [{"a:1"}] and adapter [b] with [{"b:9"}], not with the
    stripped [{"1"}] and [{"9"}]. *)
Lemma passes_local_ids_counterexample :
  ¬ Spec.passes_local_ids Samples.registry_abc
      (SearchRequest.mk "foo" ["a:1"; "b:9"]).
Proof.
  intros Hspec.
  destruct search_calls_example as (calls & Hcalls & Hnames & Hids).
  destruct calls as [|c calls]; [done|].
  injection Hnames as Hname _. injection Hids as Hid _.
  specialize (Hspec _ Hcalls c ltac:(left)).
  rewrite Hid, Hname in Hspec. revert Hspec.
  apply (bool_decide_unpack _). by vm_compute.
Qed.

(** C3: the adapters [Search] calls are exactly the registered adapters
    whose namespace is the [namespaceOf] of some supplied id, each called
    once and in registry order; an adapter whose namespace no supplied id
    refers to is not called; with no supplied id, no adapter is called and
    the search streams no entity. *)
Theorem Search_selects (services : registry) (request : SearchRequest.t) :
  ∃ calls,
    Resolver.search_calls services request = Ok calls
    ∧ sublist (Resolver.callee <$> calls) services
    ∧ (∀ name service,
         (name, service) ∈ Resolver.callee <$> calls
         ↔ (name, service) ∈ services
           ∧ ∃ id, id ∈ SearchRequest.library_ids request
                   ∧ namespaceOf id = Ok name)
    ∧ (SearchRequest.library_ids request = [] →
       calls = []
       ∧ (∃ e, Resolver.Search services request [] e)
       ∧ ∀ responses e,
           Resolver.Search services request responses e → responses = []).
Proof.
  eexists. split; [apply search_calls_Ok|].
  pose proof (callee_search_calls services request _
                (search_calls_Ok services request)) as Hcallee.
  split_and!.
  - rewrite Hcallee. apply sublist_filter.
  - intros name service.
    rewrite Hcallee, list_elem_of_filter, elem_of_service_ids. simpl.
    unfold Resolver.library_ids_of. setoid_rewrite elem_of_list_to_set.
    tauto.
  - intros Hempty.
    assert (Resolver.search_calls services request = Ok []) as Hnone.
    { rewrite search_calls_Ok. unfold Resolver.library_ids_of.
      rewrite Hempty. simpl. rewrite set_map_empty. f_equal.
      rewrite filter_none; [done|]. intros entry. set_solver. }
    rewrite search_calls_Ok in Hnone. injection Hnone as Hnone.
    split_and!; [done|..].
    + exists None. unfold Resolver.Search. rewrite search_calls_Ok, Hnone.
      exists []. split; [constructor|done].
    + intros responses e. unfold Resolver.Search.
      rewrite search_calls_Ok, Hnone.
      intros (out & Hm & ->). simpl in Hm.
      inversion Hm as [|l1 l2 ? ? ? Heq|l1 ? ? l2 ? ? ? Heq|l1 ? l2 Heq];
        [done|by destruct l1..].
Qed.

Lemma Search_selects_witness :
  (∀ responses e,
     Resolver.Search Samples.registry_abc (SearchRequest.mk "foo" [])
       responses e →
     responses = [])
  ∧ ∃ calls,
      Resolver.search_calls Samples.registry_abc
        (SearchRequest.mk "foo" ["a:1"; "b:9"]) = Ok calls
      ∧ ("a", Samples.adapter [Samples.a1; Samples.a2]
                [Samples.entity "1"; Samples.entity "2"])
        ∈ Resolver.callee <$> calls
      ∧ ∀ service, ("c", service) ∉ Resolver.callee <$> calls.
Proof.
  split.
  - destruct (Search_selects Samples.registry_abc (SearchRequest.mk "foo" []))
      as (calls & _ & _ & _ & Hempty).
    destruct (Hempty eq_refl) as (_ & _ & Hnone). exact Hnone.
  - destruct (Search_selects Samples.registry_abc
                (SearchRequest.mk "foo" ["a:1"; "b:9"]))
      as (calls & Hcalls & _ & Hmem & _).
    exists calls. split; [exact Hcalls|]. split.
    + apply Hmem. split; [left|]. exists "a:1". split; [left|reflexivity].
    + intros service (_ & id & Hid & Hns)%Hmem. simpl in Hid.
      repeat (apply elem_of_cons in Hid as [->|Hid]);
        [discriminate Hns..|by apply elem_of_nil in Hid].
Defined.

(** C7: when the generators of all the adapters called complete, the
    search completes too, whatever the interleaving, and the entities it
    streams are those the adapters produced, each as many times as it was
    produced: their number is the sum of the adapters' counts, [k1 + k2]
    for two adapters.  Every response carries exactly one entity. *)
Theorem Search_merges (services : registry) (request : SearchRequest.t)
    (calls : list Resolver.call) :
  Resolver.search_calls services request = Ok calls →
  Forall (λ c, ending (Resolver.run_call c) = None) calls →
  (∃ responses, Resolver.Search services request responses None)
  ∧ ∀ responses e,
      Resolver.Search services request responses e →
      e = None
      ∧ responses ≫= SearchResponse.entities
        ≡ₚ concat ((λ c, items (Resolver.run_call c)) <$> calls)
      ∧ length responses
        = sum_list ((λ c, length (items (Resolver.run_call c))) <$> calls)
      ∧ Forall (λ r, length (SearchResponse.entities r) = 1) responses
      ∧ (∀ c1 c2, calls = [c1; c2] →
           length responses
           = length (items (Resolver.run_call c1))
             + length (items (Resolver.run_call c2))).
Proof.
  intros Hcalls Hall. unfold Resolver.Search. rewrite Hcalls. split.
  - pose proof (merge_in_order_sound (Resolver.run_call <$> calls)) as Hm.
    assert (Forall (λ p, ending p = None) (Resolver.run_call <$> calls))
      as Hall' by by apply Forall_fmap.
    destruct (merge_complete _ _ _ Hall' Hm) as [He _]. rewrite He in Hm.
    eauto.
  - intros responses e (out & Hm & ->).
    apply merge_complete in Hm as [-> Hperm]; [|by apply Forall_fmap].
    assert (length (Resolver.respond <$> out)
            = sum_list ((λ c, length (items (Resolver.run_call c))) <$> calls))
      as Hlen.
    { rewrite length_fmap, Hperm, length_concat_sum.
      by rewrite <- !list_fmap_compose. }
    split_and!; [done| |done| |].
    + rewrite <- list_fmap_compose in Hperm. rewrite <- Hperm.
      clear. induction out as [|x out IH]; [done|].
      csimpl. by rewrite IH.
    + apply Forall_fmap, Forall_true. done.
    + intros c1 c2 ->. rewrite Hlen. simpl. lia.
Qed.

Lemma Search_merges_witness :
  ∃ responses,
    Resolver.Search Samples.registry_ab
      (SearchRequest.mk "foo" ["a:1"; "b:9"]) responses None
    ∧ length responses = 3
    ∧ Forall (λ r, length (SearchResponse.entities r) = 1) responses.
Proof.
  destruct (Search_merges _ _ _
              (search_calls_Ok Samples.registry_ab
                 (SearchRequest.mk "foo" ["a:1"; "b:9"])))
    as [[responses Hs] Hall].
  - vm_compute. repeat constructor.
  - exists responses. split; [exact Hs|].
    destruct (Hall _ _ Hs) as (_ & _ & Hlen & Hone & _).
    split; [|exact Hone]. rewrite Hlen. vm_compute. reflexivity.
Defined.

Lemma startswith_longer (s : string) (c : ascii) :
  Str.startswith s (s +:+ String c EmptyString) = false.
Proof.
  unfold Str.startswith. induction s as [|c' s IH]; [done|].
  rewrite append_cons. simpl. by destruct (ascii_dec c' c').
Qed.

(** C10, as amended: an id without separator that is the name of a
    registered adapter is not rejected: the adapter is called, and the id
    itself is not among the ids it is called with, which are the supplied ids
    that start with [name + ":"].  When no supplied id starts with
    [name + ":"] the adapter is called with the empty set, for which the
    Seoul Seocho adapter sends an empty list of codes upstream. *)
Theorem Search_bare_namespace (services : registry) (request : SearchRequest.t)
    (bare : string) (service : Service.t) :
  Str.contains SEP bare = false →
  bare ∈ SearchRequest.library_ids request →
  (bare, service) ∈ services →
  ∃ calls,
    Resolver.search_calls services request = Ok calls
    ∧ Resolver.mk_call bare service (SearchRequest.term request)
        (Resolver.scoped (Resolver.library_ids_of request) bare) ∈ calls
    ∧ (bare ∉ Resolver.scoped (Resolver.library_ids_of request) bare)
    ∧ ((∀ id, id ∈ SearchRequest.library_ids request →
              Str.startswith id (bare +:+ ":") = false) →
       Resolver.scoped (Resolver.library_ids_of request) bare = ∅)
    ∧ ∀ keyword,
        SeoulSeochoService.search_body keyword ∅
        = JObj {[ "searchKeyword" := JStr keyword; "manageCode" := JArr [] ]}.
Proof.
  intros Hbare Hid Hin. eexists. split; [apply search_calls_Ok|].
  split_and!.
  - apply list_elem_of_fmap. exists (bare, service). split; [done|].
    apply list_elem_of_filter. split; [|done].
    apply elem_of_service_ids. exists bare. split.
    + unfold Resolver.library_ids_of. by apply elem_of_list_to_set.
    + by apply namespaceOf_no_sep.
  - unfold Resolver.scoped. rewrite elem_of_filter.
    rewrite startswith_longer. by intros [? _].
  - intros Hnone. apply set_eq. intros id.
    unfold Resolver.scoped, Resolver.library_ids_of.
    rewrite elem_of_filter, elem_of_list_to_set. split; [|set_solver].
    intros [Hstarts Hin']. rewrite (Hnone _ Hin') in Hstarts. done.
  - intros keyword. unfold SeoulSeochoService.search_body,
      SeoulSeochoService.manage_codes. by rewrite elements_empty.
Qed.

Lemma Search_bare_namespace_witness :
  ∃ calls,
    Resolver.search_calls Samples.registry_seocho
      (SearchRequest.mk "foo" ["seoul-seocho"]) = Ok calls
    ∧ Resolver.mk_call "seoul-seocho" (Samples.adapter [] [Samples.entity "5"])
        "foo" ∅ ∈ calls.
Proof.
  destruct (Search_bare_namespace Samples.registry_seocho
              (SearchRequest.mk "foo" ["seoul-seocho"]) "seoul-seocho"
              (Samples.adapter [] [Samples.entity "5"]))
    as (calls & Hcalls & Hin & _ & Hempty & _).
  - reflexivity.
  - left.
  - left.
  - exists calls. split; [exact Hcalls|].
    rewrite Hempty in Hin; [exact Hin|].
    intros id ->%list_elem_of_singleton. reflexivity.
Defined.

(** C10, as stated, fails: with the ids ["seoul-seocho"] and
    ["seoul-seocho:MA"] the adapter is called with [{"seoul-seocho:MA"}],
    not with the empty set. *)
Lemma bare_id_unscoped_counterexample :
  ¬ Spec.bare_id_unscoped Samples.registry_seocho
      (SearchRequest.mk "foo" ["seoul-seocho"; "seoul-seocho:MA"]).
Proof.
  intros Hspec.
  destruct (Hspec "seoul-seocho" (Samples.adapter [] [Samples.entity "5"]))
    as (calls & Hcalls & c & Hc & Hcallee & Hids);
    [reflexivity|left|left|].
  destruct (elem_of_search_calls _ _ _ _ Hcalls Hc) as (_ & _ & Hscoped).
  injection Hcallee as Hname _. rewrite Hscoped, Hname in Hids.
  revert Hids. apply (bool_decide_unpack _). by vm_compute.
Qed.

(** ** Holding status *)

Ltac result_cases H :=
  repeat match type of H with
    | mbind _ ?m = Ok _ =>
        let E := fresh "E" in
        destruct m eqn:E; simpl in H; [|discriminate H]
    | (if ?b then _ else _) = Ok _ => destruct b
    | Ok _ = Ok _ => injection H as <-
    end.

Lemma parse_state_populated (py_int : string → result Z) (book : json)
    (status : HoldingStatus.t) :
  SeoulSeochoService._parse_state py_int book = Ok status →
  HoldingStatus.populated status = 1.
Proof.
  unfold SeoulSeochoService._parse_state, SeoulSeochoService.unavailable_state.
  intros H. result_cases H; reflexivity.
Qed.

Lemma elem_of_yield_from {A B} (emit : A → result B) (xs : list A) (y : B) :
  y ∈ items (yield_from emit xs) → ∃ x, x ∈ xs ∧ emit x = Ok y.
Proof.
  induction xs as [|x xs IH]; simpl; [by intros ?%elem_of_nil|].
  destruct (emit x) as [y'|e] eqn:E; simpl; [|by intros ?%elem_of_nil].
  intros [->|Hin]%elem_of_cons.
  - exists x. split; [left|done].
  - destruct (IH Hin) as (x' & Hx' & Hy). exists x'. split; [by right|done].
Qed.

(** C9: every [HoldingStatus] that [_parse_state] returns has exactly one
    of [available], [on_loan] and [unavailable] populated, and so has the
    status of every holding summary of every entity the adapter's search
    yields. *)
Theorem holding_status_one_variant (py_str : json → string)
    (py_int : string → result Z)
    (http_post : string → string → json → result json) :
  (∀ book status,
     SeoulSeochoService._parse_state py_int book = Ok status →
     HoldingStatus.populated status = 1)
  ∧ (∀ self keyword library_ids entity summary,
       entity ∈ items (SeoulSeochoService.search py_str py_int http_post
                         self keyword library_ids) →
       summary ∈ SearchEntity.holding_summaries entity →
       HoldingStatus.populated (HoldingSummary.status summary) = 1).
Proof.
  split; [apply parse_state_populated|].
  intros self keyword library_ids entity summary.
  unfold SeoulSeochoService.search.
  destruct (_ ≫= _) as [books|e]; simpl; [|by intros ?%elem_of_nil].
  intros (book & _ & Hentity)%elem_of_yield_from.
  unfold SeoulSeochoService.search_entity in Hentity.
  result_cases Hentity. simpl.
  intros ->%list_elem_of_singleton. simpl.
  by eapply parse_state_populated.
Qed.

Lemma holding_status_one_variant_witness :
  (∃ status,
     SeoulSeochoService._parse_state Samples.decimal Samples.book_available
     = Ok status
     ∧ HoldingStatus.populated status = 1 ∧ is_Some (HoldingStatus.available status))
  ∧ (∃ status,
       SeoulSeochoService._parse_state Samples.decimal Samples.book_on_loan
       = Ok status
       ∧ HoldingStatus.populated status = 1 ∧ is_Some (HoldingStatus.on_loan status))
  ∧ (∃ status,
       SeoulSeochoService._parse_state Samples.decimal Samples.book_lost
       = Ok status
       ∧ HoldingStatus.populated status = 1
       ∧ is_Some (HoldingStatus.unavailable status))
  ∧ (∃ entity summary,
       items (SeoulSeochoService.search Samples.str Samples.decimal
                Samples.upstream SeoulSeochoService.init "foo" {["seoul-seocho:MA"]})
       = [entity]
       ∧ SearchEntity.holding_summaries entity = [summary]
       ∧ HoldingSummary.library_id summary = "seoul-seocho:MA"
       ∧ HoldingStatus.populated (HoldingSummary.status summary) = 1).
Proof.
  destruct (holding_status_one_variant Samples.str Samples.decimal
              Samples.upstream) as [Hone Hsearch].
  split_and!; [eexists; (split; [vm_compute; reflexivity|])..|].
  - split; [|by eexists]. apply (Hone Samples.book_available).
    vm_compute. reflexivity.
  - split; [|by eexists]. apply (Hone Samples.book_on_loan).
    vm_compute. reflexivity.
  - split; [|by eexists]. apply (Hone Samples.book_lost).
    vm_compute. reflexivity.
  - eexists _, _. split; [vm_compute; reflexivity|].
    split; [reflexivity|]. split; [reflexivity|].
    eapply (Hsearch SeoulSeochoService.init "foo" {["seoul-seocho:MA"]}).
    + vm_compute. left.
    + left.
Defined.

Lemma parse_state_no_due :
  SeoulSeochoService._parse_state Samples.decimal Samples.book_on_loan_no_due
  = Raise (KeyError "returnPlanDate").
Proof. by vm_compute. Qed.

Lemma parse_state_on_loan_due :
  HoldingStatus.on_loan
  <$> SeoulSeochoService._parse_state Samples.decimal Samples.book_on_loan
  = Ok (Some (OnLoanStatus.mk (JStr "대출중")
                (DateTime.mk (Date.mk 2023 10 5)))).
Proof. by vm_compute. Qed.

(** * Further properties of the code *)

(** ** The first field of an identifier *)

Lemma split_aux_first_no_sep sep s :
  Str.contains sep (Str.split_aux sep s).1 = false.
Proof.
  induction s as [|c s IH]; simpl; [done|].
  destruct (Str.split_aux sep s) as [h t]; simpl in *.
  destruct (Ascii.eqb c sep) eqn:E; simpl; [done|]. by rewrite E.
Qed.

Lemma split_aux_decompose sep s :
  s = (Str.split_aux sep s).1
  ∨ ∃ rest, s = (Str.split_aux sep s).1 +:+ String sep rest.
Proof.
  induction s as [|c s IH]; simpl; [by left|].
  destruct (Str.split_aux sep s) as [h t]; simpl in *.
  destruct (Ascii.eqb_spec c sep) as [->|Hne]; simpl.
  - right. by exists s.
  - destruct IH as [->|[rest ->]]; [by left|].
    right. exists rest. by rewrite append_cons.
Qed.

Lemma namespaceOf_no_sep_inside id ns :
  namespaceOf id = Ok ns → Str.contains SEP ns = false.
Proof.
  rewrite namespaceOf_first. intros [= <-]. apply split_aux_first_no_sep.
Qed.

Lemma namespaceOf_shape id ns :
  namespaceOf id = Ok ns ↔
  Str.contains SEP ns = false ∧ (id = ns ∨ ∃ localId, id = compose ns localId).
Proof.
  split.
  - intros Hns. split; [by eapply namespaceOf_no_sep_inside|].
    rewrite namespaceOf_first in Hns. injection Hns as <-.
    destruct (split_aux_decompose SEP id) as [?|[rest ?]]; [by left|].
    right. by exists rest.
  - intros [Hsep [->|[localId ->]]].
    + by apply namespaceOf_no_sep.
    + by apply namespaceOf_sep.
Qed.

(** ** What [stream.merge] forwards *)

Lemma merge_ending {A} (sources : list (producer A)) out e :
  merge sources out e →
  match e with
  | None => Forall (λ p, ending p = None) sources
  | Some err => ∃ p, p ∈ sources ∧ ending p = Some err
  end.
Proof.
  induction 1 as [|l1 l2 out e _ IH|l1 x rest l2 out e _ IH|l1 err l2].
  - constructor.
  - destruct e as [err|].
    + destruct IH as (p & Hp & He). exists p. split; [|done].
      apply elem_of_app in Hp as [?|?]; apply elem_of_app; [by left|].
      right. by right.
    + apply Forall_app in IH as [H1 H2].
      apply Forall_app. split; [done|]. by constructor.
  - destruct e as [err|].
    + destruct IH as (p & Hp & He).
      apply elem_of_app in Hp as [Hp|[->|Hp]%elem_of_cons].
      * exists p. split; [|done]. apply elem_of_app. by left.
      * exists (Yield x rest). split; [|done].
        apply elem_of_app. right. left.
      * exists p. split; [|done]. apply elem_of_app. right. by right.
    + apply Forall_app in IH as [H1 [Hrest H2]%Forall_cons].
      apply Forall_app. split; [done|]. by constructor.
  - exists (Raised err). split; [|done]. apply elem_of_app. right. left.
Qed.

Lemma merge_submseteq {A} (sources : list (producer A)) out e :
  merge sources out e → out ⊆+ concat (items <$> sources).
Proof.
  induction 1 as [|l1 l2 out e _ IH|l1 x rest l2 out e _ IH|l1 err l2].
  - done.
  - by rewrite fmap_app, concat_app in *.
  - rewrite fmap_app, concat_app in *. csimpl in *.
    rewrite <- Permutation_middle. by constructor.
  - apply submseteq_nil_l.
Qed.

(** ** Streaming search: failures, provenance and routing *)

Lemma Search_in_order (services : registry) (request : SearchRequest.t) calls :
  Resolver.search_calls services request = Ok calls →
  Resolver.Search services request
    (Resolver.respond <$> (merge_in_order (Resolver.run_call <$> calls)).1)
    (merge_in_order (Resolver.run_call <$> calls)).2.
Proof.
  intros Hcalls. unfold Resolver.Search. rewrite Hcalls.
  eexists. split; [apply merge_in_order_sound|done].
Qed.


Lemma called_name_no_sep (services : registry) (request : SearchRequest.t) calls c :
  Resolver.search_calls services request = Ok calls →
  c ∈ calls →
  Str.contains SEP (Resolver.call_name c) = false.
Proof.
  intros Hcalls Hc.
  assert (Resolver.callee c ∈ Resolver.callee <$> calls) as Hin
    by (apply list_elem_of_fmap; eauto).
  rewrite (callee_search_calls _ _ _ Hcalls) in Hin.
  apply list_elem_of_filter in Hin as [Hin _]. simpl in Hin.
  apply elem_of_service_ids in Hin as (id & _ & Hns).
  by eapply namespaceOf_no_sep_inside.
Qed.

(** X1: the search fails fast.  When the generator of one of the adapters
    called ends with an exception, the search has an outcome, and every
    outcome it can have ends with the exception of an adapter called whose
    generator raises: it never completes normally. *)
Theorem Search_fails_fast (services : registry) (request : SearchRequest.t)
    (calls : list Resolver.call) (c : Resolver.call) (err : exn) :
  Resolver.search_calls services request = Ok calls →
  c ∈ calls →
  ending (Resolver.run_call c) = Some err →
  (∃ responses e, Resolver.Search services request responses e)
  ∧ ∀ responses e,
      Resolver.Search services request responses e →
      ∃ c' err',
        c' ∈ calls ∧ ending (Resolver.run_call c') = Some err' ∧ e = Some err'.
Proof.
  intros Hcalls Hc Herr. split.
  - eexists _, _. by apply Search_in_order.
  - intros responses e. unfold Resolver.Search. rewrite Hcalls.
    intros (out & Hm%merge_ending & _). destruct e as [err'|].
    + destruct Hm as (p & (c' & -> & Hc')%list_elem_of_fmap & Hp). eauto.
    + rewrite Forall_fmap, Forall_forall in Hm.
      specialize (Hm c Hc). simpl in Hm. congruence.
Qed.

Lemma Search_fails_fast_witness :
  ∃ calls,
    Resolver.search_calls Samples.registry_down
      (SearchRequest.mk "foo" ["a:1"; "b:9"]) = Ok calls
    ∧ ∀ responses,
        ¬ Resolver.Search Samples.registry_down
            (SearchRequest.mk "foo" ["a:1"; "b:9"]) responses None.
Proof.
  eexists. split; [apply search_calls_Ok|].
  intros responses Hs.
  destruct (Search_fails_fast Samples.registry_down
              (SearchRequest.mk "foo" ["a:1"; "b:9"]) _
              (Resolver.mk_call "b" (Samples.unreachable "b is down") "foo"
                 (Resolver.scoped {["a:1"; "b:9"]} "b"))
              (ClientError "b is down")
              (search_calls_Ok _ _)) as [_ Hall].
  - vm_compute. right. left.
  - reflexivity.
  - destruct (Hall _ _ Hs) as (c' & err' & _ & _ & He). discriminate He.
Defined.

(** X2: whatever the outcome, completed or failed, the search streams only
    entities that the adapters called produced, none more often than it was
    produced, one per response; so it never streams more responses than the
    adapters produced entities. *)
Theorem Search_streams_produced (services : registry) (request : SearchRequest.t)
    (calls : list Resolver.call) (responses : list SearchResponse.t)
    (e : option exn) :
  Resolver.search_calls services request = Ok calls →
  Resolver.Search services request responses e →
  responses ≫= SearchResponse.entities
    ⊆+ concat ((λ c, items (Resolver.run_call c)) <$> calls)
  ∧ Forall (λ r, length (SearchResponse.entities r) = 1) responses
  ∧ length responses
    ≤ sum_list ((λ c, length (items (Resolver.run_call c))) <$> calls).
Proof.
  intros Hcalls. unfold Resolver.Search. rewrite Hcalls.
  intros (out & Hm%merge_submseteq & ->).
  rewrite <- list_fmap_compose in Hm.
  split_and!.
  - replace (_ ≫= _) with out; [done|].
    clear. induction out as [|x out IH]; [done|]. csimpl. by rewrite <- IH.
  - apply Forall_fmap, Forall_true. done.
  - rewrite length_fmap. apply submseteq_length in Hm.
    rewrite length_concat_sum, <- list_fmap_compose in Hm. done.
Qed.

Lemma Search_streams_produced_witness :
  ∃ responses e,
    Resolver.Search Samples.registry_abc
      (SearchRequest.mk "foo" ["a:1"; "b:9"]) responses e
    ∧ length responses ≤ 3.
Proof.
  pose proof (Search_in_order Samples.registry_abc
                (SearchRequest.mk "foo" ["a:1"; "b:9"]) _
                (search_calls_Ok _ _)) as Hs.
  eexists _, _. split; [exact Hs|].
  destruct (Search_streams_produced _ _ _ _ _ (search_calls_Ok _ _) Hs)
    as (_ & _ & Hlen).
  etrans; [exact Hlen|]. vm_compute. done.
Defined.






(** X5: an adapter registered under a name that contains [":"] is never
    called: the name of every adapter called is free of the separator. *)
Theorem Search_never_calls_separator_name (services : registry)
    (request : SearchRequest.t) (calls : list Resolver.call) (c : Resolver.call) :
  Resolver.search_calls services request = Ok calls →
  c ∈ calls →
  Str.contains SEP (Resolver.call_name c) = false.
Proof. apply called_name_no_sep. Qed.

Lemma Search_never_calls_separator_name_witness :
  ∃ calls,
    Resolver.search_calls Samples.registry_colon
      (SearchRequest.mk "foo" ["a:b:1"]) = Ok calls
    ∧ Resolver.call_name <$> calls = ["a"]
    ∧ Forall (λ c, Str.contains SEP (Resolver.call_name c) = false) calls.
Proof.
  eexists. split; [apply search_calls_Ok|]. split; [by vm_compute|].
  apply Forall_forall. intros c Hc.
  exact (Search_never_calls_separator_name Samples.registry_colon
           (SearchRequest.mk "foo" ["a:b:1"]) _ c (search_calls_Ok _ _) Hc).
Defined.

(** X6: every id an adapter is called with belongs to that adapter: its
    namespace is the adapter's name.  So no id is passed to adapters of two
    different names. *)
Theorem Search_ids_route_back (services : registry) (request : SearchRequest.t)
    (calls : list Resolver.call) (c : Resolver.call) (id : string) :
  Resolver.search_calls services request = Ok calls →
  c ∈ calls →
  id ∈ Resolver.call_ids c →
  namespaceOf id = Ok (Resolver.call_name c)
  ∧ ∀ c', c' ∈ calls → id ∈ Resolver.call_ids c' →
          Resolver.call_name c' = Resolver.call_name c.
Proof.
  intros Hcalls Hc Hid.
  assert (∀ c', c' ∈ calls → id ∈ Resolver.call_ids c' →
                namespaceOf id = Ok (Resolver.call_name c')) as Hroute.
  { intros c' Hc' Hid'.
    destruct (elem_of_search_calls _ _ _ _ Hcalls Hc') as (_ & _ & Hids).
    rewrite Hids in Hid'. apply elem_of_scoped in Hid' as [_ Hshape].
    apply namespaceOf_shape. split; [by eapply called_name_no_sep|by right]. }
  split; [by apply Hroute|].
  intros c' Hc' Hid'. pose proof (Hroute _ Hc Hid). pose proof (Hroute _ Hc' Hid').
  congruence.
Qed.

Lemma Search_ids_route_back_witness :
  ∃ c,
    Resolver.call_name c = "a"
    ∧ "a:1" ∈ Resolver.call_ids c
    ∧ namespaceOf "a:1" = Ok (Resolver.call_name c).
Proof.
  exists (Resolver.mk_call "a"
            (Samples.adapter [Samples.a1; Samples.a2]
               [Samples.entity "1"; Samples.entity "2"])
            "foo" (Resolver.scoped {["a:1"; "b:9"]} "a")).
  assert ("a:1" ∈ Resolver.scoped {["a:1"; "b:9"]} "a") as Hid.
  { apply elem_of_scoped. split; [set_solver|]. by exists "1". }
  split; [reflexivity|]. split; [exact Hid|].
  refine (proj1 (Search_ids_route_back Samples.registry_abc
                   (SearchRequest.mk "foo" ["a:1"; "b:9"]) _
                   (Resolver.mk_call "a"
                      (Samples.adapter [Samples.a1; Samples.a2]
                         [Samples.entity "1"; Samples.entity "2"])
                      "foo" (Resolver.scoped {["a:1"; "b:9"]} "a"))
                   "a:1" (search_calls_Ok _ _) _ Hid)).
  vm_compute. left.
Defined.

(** X7: of the supplied ids of a called adapter's namespace, the adapter
    is passed all but the bare name: a supplied id has the adapter's name as
    its namespace exactly when it is among the ids of the call or is the name
    itself. *)
Theorem Search_namespace_partition (services : registry)
    (request : SearchRequest.t) (calls : list Resolver.call) (c : Resolver.call)
    (id : string) :
  Resolver.search_calls services request = Ok calls →
  c ∈ calls →
  id ∈ SearchRequest.library_ids request →
  namespaceOf id = Ok (Resolver.call_name c)
  ↔ id ∈ Resolver.call_ids c ∨ id = Resolver.call_name c.
Proof.
  intros Hcalls Hc Hid.
  destruct (elem_of_search_calls _ _ _ _ Hcalls Hc) as (_ & _ & Hids).
  pose proof (called_name_no_sep _ _ _ _ Hcalls Hc) as Hsep.
  rewrite Hids, elem_of_scoped, namespaceOf_shape.
  unfold Resolver.library_ids_of. rewrite elem_of_list_to_set. tauto.
Qed.

Lemma Search_namespace_partition_witness :
  ∃ c,
    Resolver.call_name c = "seoul-seocho"
    ∧ "seoul-seocho:MA" ∈ Resolver.call_ids c
    ∧ ("seoul-seocho" ∈ Resolver.call_ids c
       ∨ "seoul-seocho" = Resolver.call_name c).
Proof.
  exists (Resolver.mk_call "seoul-seocho"
            (Samples.adapter [] [Samples.entity "5"]) "foo"
            (Resolver.scoped {["seoul-seocho"; "seoul-seocho:MA"]}
               "seoul-seocho")).
  split; [reflexivity|]. split.
  - apply elem_of_scoped. split; [set_solver|]. by exists "MA".
  - refine (proj1 (Search_namespace_partition Samples.registry_seocho
                     (SearchRequest.mk "foo" ["seoul-seocho"; "seoul-seocho:MA"])
                     _
                     (Resolver.mk_call "seoul-seocho"
                        (Samples.adapter [] [Samples.entity "5"]) "foo"
                        (Resolver.scoped {["seoul-seocho"; "seoul-seocho:MA"]}
                           "seoul-seocho"))
                     "seoul-seocho" (search_calls_Ok _ _) _ _) _).
    + vm_compute. left.
    + left.
    + reflexivity.
Defined.

(** ** The Seoul Seocho adapter: the search request *)

(** X8: the codes of the search request.  The adapter sends one code per
    id it is given; a code is sent exactly when it is the rest of a given id
    after the prefix ["seoul-seocho:"], or is itself a given id that does not
    start with the prefix and so goes upstream unchanged. *)
Theorem manage_codes_spec (library_ids : gset string) :
  length (SeoulSeochoService.manage_codes library_ids) = size library_ids
  ∧ ∀ code,
      code ∈ SeoulSeochoService.manage_codes library_ids
      ↔ compose SeoulSeochoService.PREFIX code ∈ library_ids
        ∨ (code ∈ library_ids ∧ Str.startswith code "seoul-seocho:" = false).
Proof.
  unfold SeoulSeochoService.manage_codes. split; [by rewrite length_fmap|].
  intros code. rewrite list_elem_of_fmap. setoid_rewrite elem_of_elements.
  split.
  - intros (id & -> & Hid).
    destruct (Str.startswith id "seoul-seocho:") eqn:E.
    + left. apply removeprefix_startswith in E.
      by rewrite compose_PREFIX, <- E.
    + right. unfold Str.removeprefix. by rewrite E.
  - intros [Hin|[Hin Hno]].
    + exists (compose SeoulSeochoService.PREFIX code). split; [|done].
      by rewrite compose_PREFIX, removeprefix_app.
    + exists code. split; [|done]. unfold Str.removeprefix. by rewrite Hno.
Qed.

(** ** The Seoul Seocho adapter: the search generator *)

Lemma yield_from_spec {A B} (emit : A → result B) (xs : list A) :
  ∃ n,
    Forall2 (λ x y, emit x = Ok y) (take n xs) (items (yield_from emit xs))
    ∧ match ending (yield_from emit xs) with
      | None => n = length xs
      | Some err => ∃ x, xs !! n = Some x ∧ emit x = Raise err
      end.
Proof.
  induction xs as [|x xs (n & Hitems & Hend)]; simpl.
  - exists 0. by split; [constructor|].
  - destruct (emit x) as [y|err] eqn:E; simpl.
    + exists (S n). split; [by constructor|].
      destruct (ending _); [done|by f_equal].
    + exists 0. split; [constructor|]. by exists x.
Qed.

(** X9: the search generator follows the book list of the response.  Given
    a response whose [contents.bookList] is a list, the entities yielded are
    those of the leading records that convert, one each and in the order of
    the list; the generator returns when every record converts and otherwise
    raises what the first record that fails raises, yielding nothing of the
    records after it. *)
Theorem search_follows_book_list (py_str : json → string)
    (py_int : string → result Z)
    (http_post : string → string → json → result json)
    (self : SeoulSeochoService.t) (keyword : string) (library_ids : gset string)
    (root contents : json) (books : list json) :
  http_post (SeoulSeochoService.base self) "/api/search"
    (SeoulSeochoService.search_body keyword library_ids) = Ok root →
  subscript root "contents" = Ok contents →
  subscript contents "bookList" = Ok (JArr books) →
  ∃ n,
    Forall2 (λ book entity,
               SeoulSeochoService.search_entity py_str py_int book = Ok entity)
      (take n books)
      (items (SeoulSeochoService.search py_str py_int http_post self
                keyword library_ids))
    ∧ match ending (SeoulSeochoService.search py_str py_int http_post self
                      keyword library_ids) with
      | None => n = length books
      | Some err =>
          ∃ book, books !! n = Some book
                  ∧ SeoulSeochoService.search_entity py_str py_int book
                    = Raise err
      end.
Proof.
  intros Hpost Hcontents Hbooks. unfold SeoulSeochoService.search.
  rewrite Hpost. simpl. rewrite Hcontents. simpl. rewrite Hbooks. simpl.
  apply yield_from_spec.
Qed.

Lemma search_follows_book_list_witness :
  ∃ n,
    Forall2 (λ book entity,
               SeoulSeochoService.search_entity Samples.str Samples.decimal book
               = Ok entity)
      (take n [Samples.book_record; JObj ∅; Samples.book_record])
      (items (SeoulSeochoService.search Samples.str Samples.decimal
                Samples.upstream_broken SeoulSeochoService.init "foo" ∅))
    ∧ match ending (SeoulSeochoService.search Samples.str Samples.decimal
                      Samples.upstream_broken SeoulSeochoService.init "foo" ∅)
      with
      | None => n = 3
      | Some err =>
          ∃ book, [Samples.book_record; JObj ∅; Samples.book_record] !! n
                  = Some book
                  ∧ SeoulSeochoService.search_entity Samples.str
                      Samples.decimal book = Raise err
      end.
Proof.
  eapply (search_follows_book_list Samples.str Samples.decimal
            Samples.upstream_broken SeoulSeochoService.init "foo" ∅).
  - reflexivity.
  - vm_compute. reflexivity.
  - vm_compute. reflexivity.
Defined.

Example search_stops_at_broken_record :
  length (items (SeoulSeochoService.search Samples.str Samples.decimal
                   Samples.upstream_broken SeoulSeochoService.init "foo" ∅)) = 1
  ∧ ending (SeoulSeochoService.search Samples.str Samples.decimal
              Samples.upstream_broken SeoulSeochoService.init "foo" ∅)
    = Some (KeyError "isbn").
Proof. by vm_compute. Qed.



(** ** The Seoul Seocho adapter: holding status *)

Lemma eq_str_true (v : json) (s : string) : eq_str v s = true ↔ v = JStr s.
Proof.
  destruct v; simpl; try (split; [done|by intros [=]]).
  rewrite bool_decide_eq_true. split; [by intros ->|by intros [= ->]].
Qed.

Lemma eq_str_false (v : json) (s : string) : eq_str v s = false ↔ v ≠ JStr s.
Proof.
  rewrite <- eq_str_true. by destruct (eq_str v s).
Qed.

(** X11: the request fields of a status agree with the record and with
    each other: [requests] is the record's [reservationCount],
    [is_requested] tells whether that count is above zero, and
    [requests_available] holds exactly when [isActiveResvYn] is ["Y"]. *)
Theorem parse_state_requests (py_int : string → result Z) (book : json)
    (status : HoldingStatus.t) :
  SeoulSeochoService._parse_state py_int book = Ok status →
  subscript book "reservationCount" = Ok (HoldingStatus.requests status)
  ∧ gt_zero (HoldingStatus.requests status)
    = Ok (HoldingStatus.is_requested status)
  ∧ (HoldingStatus.requests_available status = true
     ↔ subscript book "isActiveResvYn" = Ok (JStr "Y")).
Proof.
  unfold SeoulSeochoService._parse_state, SeoulSeochoService.unavailable_state.
  intros H.
  destruct (subscript book "reservationCount") as [count|] eqn:Ecount;
    simpl in H; [|done].
  destruct (gt_zero count) as [requested|] eqn:Erequested; simpl in H; [|done].
  destruct (subscript book "isActiveResvYn") as [active|] eqn:Eactive;
    simpl in H; [|done].
  assert (eq_str active "Y" = true ↔ Ok active = Ok (JStr "Y")) as Hactive.
  { rewrite eq_str_true. split; [by intros ->|by intros [= ->]]. }
  result_cases H; simpl; done.
Qed.

Ltac result_cases_eq H :=
  repeat match type of H with
    | mbind _ ?m = Ok _ =>
        let E := fresh "E" in
        destruct m eqn:E; simpl in H; [|discriminate H]
    | (if ?b then _ else _) = Ok _ =>
        let E := fresh "E" in
        destruct b eqn:E
    | Ok _ = Ok _ => injection H as <-
    end.


Lemma parse_state_requests_witness :
  ∃ status,
    SeoulSeochoService._parse_state Samples.decimal Samples.book_on_loan
    = Ok status
    ∧ subscript Samples.book_on_loan "reservationCount"
      = Ok (HoldingStatus.requests status)
    ∧ gt_zero (HoldingStatus.requests status)
      = Ok (HoldingStatus.is_requested status).
Proof.
  assert (∃ status,
            SeoulSeochoService._parse_state Samples.decimal Samples.book_on_loan
            = Ok status) as [status Hstatus]
    by (eexists; vm_compute; reflexivity).
  exists status. split; [exact Hstatus|].
  destruct (parse_state_requests _ _ _ Hstatus) as (Hcount & Hrequested & _).
  by split.
Defined.


(** X13: a status is [on_loan] only with a due date read from the record:
    the record then has a [returnPlanDate], [_parse_due] accepts it, and the
    due date of the status is what it returns. *)
Theorem parse_state_on_loan_has_due (py_int : string → result Z) (book : json)
    (status : HoldingStatus.t) (loan : OnLoanStatus.t) :
  SeoulSeochoService._parse_state py_int book = Ok status →
  HoldingStatus.on_loan status = Some loan →
  ∃ returnPlanDate,
    subscript book "returnPlanDate" = Ok returnPlanDate
    ∧ SeoulSeochoService._parse_due py_int returnPlanDate
      = Ok (OnLoanStatus.due loan).
Proof.
  unfold SeoulSeochoService._parse_state, SeoulSeochoService.unavailable_state.
  intros H. result_cases_eq H; simpl; intros [= <-]. simpl. eauto.
Qed.

Lemma parse_state_on_loan_has_due_witness :
  ∃ status loan,
    SeoulSeochoService._parse_state Samples.decimal Samples.book_on_loan
    = Ok status
    ∧ HoldingStatus.on_loan status = Some loan
    ∧ SeoulSeochoService._parse_due Samples.decimal (JStr "2023.10.05")
      = Ok (OnLoanStatus.due loan).
Proof.
  assert (∃ status loan,
            SeoulSeochoService._parse_state Samples.decimal Samples.book_on_loan
            = Ok status ∧ HoldingStatus.on_loan status = Some loan)
    as (status & loan & Hstatus & Hloan)
    by (eexists _, _; split; vm_compute; reflexivity).
  exists status, loan. split; [exact Hstatus|]. split; [exact Hloan|].
  destruct (parse_state_on_loan_has_due _ _ _ _ Hstatus Hloan)
    as (raw & Hraw & Hdue).
  vm_compute in Hraw. injection Hraw as <-. exact Hdue.
Defined.

(** X14: a copy on loan whose return date cannot be read gives no status.
    For a record with a countable [reservationCount], an [isActiveResvYn], a
    loan status other than ["대출가능"] that starts with ["대출불가"] and the
    working status ["대출중"] or ["상호대차중"], [_parse_state] raises whatever
    the lookup of [returnPlanDate] or [_parse_due] raises. *)
Theorem parse_state_on_loan_raises (py_int : string → result Z) (book : json)
    (count active working : json) (requested : bool) (loan : string) (e : exn) :
  subscript book "reservationCount" = Ok count →
  gt_zero count = Ok requested →
  subscript book "isActiveResvYn" = Ok active →
  subscript book "loanStatus" = Ok (JStr loan) →
  loan ≠ "대출가능" →
  Str.startswith loan "대출불가" = true →
  subscript book "workingStatus" = Ok working →
  working = JStr "대출중" ∨ working = JStr "상호대차중" →
  subscript book "returnPlanDate" ≫= SeoulSeochoService._parse_due py_int
  = Raise e →
  SeoulSeochoService._parse_state py_int book = Raise e.
Proof.
  intros Hcount Hrequested Hactive Hloan Hne Hblocked Hworking Hon Hdue.
  unfold SeoulSeochoService._parse_state.
  rewrite Hcount. simpl. rewrite Hrequested. simpl. rewrite Hactive.
  simpl. rewrite Hloan. simpl. rewrite bool_decide_eq_false_2 by done.
  rewrite Hblocked. simpl. rewrite Hworking. simpl.
  assert (eq_str working "대출중" || eq_str working "상호대차중" = true) as ->.
  { apply orb_true_iff. rewrite !eq_str_true. done. }
  destruct (subscript book "returnPlanDate") as [raw|e'].
  - change (SeoulSeochoService._parse_due py_int raw = Raise e) in Hdue.
    simpl. by rewrite Hdue.
  - by injection Hdue as ->.
Qed.

Lemma parse_state_on_loan_raises_witness :
  SeoulSeochoService._parse_state Samples.decimal Samples.book_on_loan_no_due
  = Raise (KeyError "returnPlanDate").
Proof.
  eapply (parse_state_on_loan_raises Samples.decimal
            Samples.book_on_loan_no_due (JInt 2) (JStr "Y") (JStr "대출중")
            true "대출불가(대출중)").
  all: try (vm_compute; reflexivity).
  - discriminate.
  - by left.
Defined.



(** ** The Seoul Seocho adapter: due dates *)

Lemma split_sep sep a b :
  Str.contains sep a = false →
  Str.split sep (a +:+ String sep b) = a :: Str.split sep b.
Proof.
  intros Ha. unfold Str.split at 1. by rewrite split_aux_sep.
Qed.

Lemma append_char c (s : string) : String c EmptyString +:+ s = String c s.
Proof. reflexivity. Qed.

Lemma split_no_sep sep a :
  Str.contains sep a = false → Str.split sep a = [a].
Proof.
  intros Ha. unfold Str.split. by rewrite split_aux_no_sep.
Qed.





(** X18: a due date with fewer than three fields is an error.  When [int]
    succeeds on its fields, a due date of one field or of two fields joined
    by a dot raises [IndexError]. *)
Theorem parse_due_too_short (py_int : string → result Z) (y m : string)
    (year month : Z) :
  Str.contains "." y = false →
  Str.contains "." m = false →
  py_int y = Ok year →
  py_int m = Ok month →
  SeoulSeochoService._parse_due py_int (JStr y) = Raise IndexError
  ∧ SeoulSeochoService._parse_due py_int (JStr (y +:+ "." +:+ m))
    = Raise IndexError.
Proof.
  intros Hy Hm Hyear Hmonth.
  unfold SeoulSeochoService._parse_due, json_split. rewrite !append_char.
  rewrite (split_sep "." y), !split_no_sep by done.
  simpl. by rewrite Hyear, Hmonth.
Qed.

Lemma parse_due_too_short_witness :
  SeoulSeochoService._parse_due Samples.decimal (JStr "2023") = Raise IndexError
  ∧ SeoulSeochoService._parse_due Samples.decimal (JStr "2023.10")
    = Raise IndexError.
Proof.
  apply (parse_due_too_short Samples.decimal "2023" "10" 2023 10); reflexivity.
Defined.

(** ** The Seoul Seocho adapter: the library list *)


Lemma yield_where_complete {A B} (emit : A → result (option B)) (xs : list A) :
  ending (yield_where emit xs) = None →
  ∃ outs,
    Forall2 (λ x o, emit x = Ok o) xs outs
    ∧ items (yield_where emit xs) = omap id outs.
Proof.
  induction xs as [|x xs IH]; simpl.
  - intros _. exists []. by split; [constructor|].
  - destruct (emit x) as [[y|]|e] eqn:E; simpl; [| |done].
    + intros (outs & Hall & ->)%IH. exists (Some y :: outs).
      by split; [constructor|].
    + intros (outs & Hall & ->)%IH. exists (None :: outs).
      by split; [constructor|].
Qed.

Lemma library_of_inv (py_str : json → string) (lib : json)
    (o : option SeoulSeochoService.ListedLibrary.t) :
  SeoulSeochoService.library_of py_str lib = Ok o →
  match o with
  | None => subscript lib "manageCode" = Ok (JStr "ALL")
  | Some l =>
      ∃ manageCode,
        subscript lib "manageCode" = Ok manageCode
        ∧ manageCode ≠ JStr "ALL"
        ∧ subscript lib "libName" = Ok (SeoulSeochoService.ListedLibrary.name l)
        ∧ SeoulSeochoService.ListedLibrary.id l
          = compose SeoulSeochoService.PREFIX (py_str manageCode)
  end.
Proof.
  unfold SeoulSeochoService.library_of, SeoulSeochoService.listed.
  destruct (subscript lib "manageCode") as [manageCode|] eqn:Ecode;
    simpl; [|done].
  destruct (eq_str manageCode "ALL") eqn:Eall; simpl.
  - intros [= <-]. by apply eq_str_true in Eall as ->.
  - apply eq_str_false in Eall.
    destruct (subscript lib "libName") as [libName|] eqn:Ename; simpl; [|done].
    intros [= <-]. simpl. eauto.
Qed.


(** X20: the list follows the upstream list and leaves the ["ALL"] entry
    out.  Given a response whose [contents.libList] is a list, [get_libraries]
    returns a generator; when that generator returns, its libraries are, in
    the order of the upstream list, one for each entry whose [manageCode] is
    not ["ALL"] and none for the entries whose [manageCode] is ["ALL"]. *)
Theorem get_libraries_follows_list (py_str : json → string)
    (http_get : string → string → result json) (self : SeoulSeochoService.t)
    (root contents : json) (libs : list json) :
  http_get (SeoulSeochoService.base self) "/api/common/libraryInfo" = Ok root →
  subscript root "contents" = Ok contents →
  subscript contents "libList" = Ok (JArr libs) →
  ∃ libraries,
    SeoulSeochoService.get_libraries py_str http_get self = Ok libraries
    ∧ (ending libraries = None →
       ∃ outs,
         items libraries = omap id outs
         ∧ Forall2
             (λ lib o,
                match o with
                | None => subscript lib "manageCode" = Ok (JStr "ALL")
                | Some l =>
                    ∃ manageCode,
                      subscript lib "manageCode" = Ok manageCode
                      ∧ manageCode ≠ JStr "ALL"
                      ∧ subscript lib "libName"
                        = Ok (SeoulSeochoService.ListedLibrary.name l)
                      ∧ SeoulSeochoService.ListedLibrary.id l
                        = compose SeoulSeochoService.PREFIX (py_str manageCode)
                end)
             libs outs).
Proof.
  intros Hget Hcontents Hlibs. unfold SeoulSeochoService.get_libraries.
  rewrite Hget. simpl. rewrite Hcontents. simpl. rewrite Hlibs. simpl.
  eexists. split; [done|].
  intros (outs & Hall & Hitems)%yield_where_complete.
  exists outs. split; [done|].
  eapply Forall2_impl; [exact Hall|]. intros lib o. apply library_of_inv.
Qed.

Lemma get_libraries_follows_list_witness :
  ∃ libraries,
    SeoulSeochoService.get_libraries Samples.str Samples.upstream_get
      SeoulSeochoService.init = Ok libraries
    ∧ SeoulSeochoService.ListedLibrary.id <$> items libraries
      = ["seoul-seocho:MA"; "seoul-seocho:MB"].
Proof.
  destruct (get_libraries_follows_list Samples.str Samples.upstream_get
              SeoulSeochoService.init Samples.library_info
              (JObj {[ "libList" :=
                         JArr [ JObj {[ "manageCode" := JStr "ALL";
                                        "libName" := JStr "all" ]};
                                JObj {[ "manageCode" := JStr "MA";
                                        "libName" := JStr "Banpo" ]};
                                JObj {[ "manageCode" := JStr "MB";
                                        "libName" := JStr "Naegok" ]} ] ]})
              _ eq_refl eq_refl eq_refl) as (libraries & Hlibraries & _).
  exists libraries. split; [exact Hlibraries|].
  vm_compute in Hlibraries. injection Hlibraries as <-. reflexivity.
Defined.





(** ** Bulk listing: conversion and success *)

(** X22: the conversion loses nothing: two internal libraries with the same
    wire library are the same library. *)
Theorem convert_library_lossless (lib1 lib2 : ServiceLibrary.t) :
  convert_library lib1 = convert_library lib2 → lib1 = lib2.
Proof. apply (inj convert_library). Qed.

Lemma convert_library_lossless_witness :
  convert_library Samples.a2 = convert_library Samples.a2
  ∧ Samples.a2 = Samples.a2.
Proof.
  split; [reflexivity|].
  apply (convert_library_lossless Samples.a2 Samples.a2). reflexivity.
Defined.

(** X23: a response of [GetLibraries] is never partial.  Whenever the call
    returns a response, the listing of every registered adapter succeeded,
    the response holds the converted libraries of all of them in registry
    order, and each is tagged ["json-py"]. *)
Theorem GetLibraries_complete (services : registry)
    (response : GetLibrariesResponse.t) :
  Resolver.GetLibraries services (Ok response) →
  ∃ listed,
    Forall2 (λ entry libraries, Service.get_libraries entry.2 = Ok libraries)
      services listed
    ∧ GetLibrariesResponse.libraries response
      = convert_library <$> concat listed
    ∧ Forall (λ library, Library.resolver_id library = "json-py")
        (GetLibrariesResponse.libraries response).
Proof.
  intros (gathered & Hg & Hr). destruct gathered as [listed|e]; [|done].
  injection Hr as ->. exists listed. split_and!; [|done|].
  - inversion Hg as [values Hvalues|]; subst. clear Hg.
    unfold Resolver.listings in Hvalues.
    revert listed Hvalues.
    induction services as [|entry services IH]; intros [|libraries listed];
      simpl; intros Hvalues; try discriminate Hvalues; [constructor|].
    injection Hvalues as Hentry Hrest. constructor; [done|by apply IH].
  - simpl. apply Forall_fmap, Forall_true. done.
Qed.

Lemma GetLibraries_complete_witness :
  ∃ listed,
    Forall2 (λ entry libraries, Service.get_libraries entry.2 = Ok libraries)
      Samples.registry_ab listed
    ∧ length (concat listed) = 3.
Proof.
  assert (Resolver.GetLibraries Samples.registry_ab
            (Ok (GetLibrariesResponse.mk
                   (convert_library <$> [Samples.a1; Samples.a2; Samples.b1]))))
    as Hr.
  { exists (Ok [[Samples.a1; Samples.a2]; [Samples.b1]]).
    split; [|done]. apply (gather_all [[Samples.a1; Samples.a2]; [Samples.b1]]). }
  destruct (GetLibraries_complete _ _ Hr) as (listed & Hall & Heq & _).
  exists listed. split; [exact Hall|].
  simpl in Heq. apply (f_equal length) in Heq.
  rewrite length_fmap in Heq. by rewrite <- Heq.
Defined.
